(** * libfritter: the outbox persistence layer ([libfritter/sqlitewrapper.py])

    A shallow embedding of [KeyedSqliteThing], [AgedKeyedSqliteThing] and
    [PendingSend], together with models of the three libraries the module
    calls into (the SQLite engine, [datetime] formatting and [json]), and
    the properties of the outbox that follow from the code.

    Layout: the data and the operations come first (store, library models,
    the classes), the lemmas after them.  [__repr__] and the connection
    cache ([_get_connection], [_exec], [_fetchone]) take no part in what is
    stated below and are left out. *)

From Stdlib Require Import ZArith String Ascii List Bool Lia.
From Stdlib Require Import DecimalString DecimalZ DecimalPos DecimalFacts.
From stdpp Require Import base option gmap strings list sorting.

Local Open Scope Z_scope.
Local Open Scope string_scope.
#[local] Set Warnings "-clear-no-such-hyp".

(* ================================================================== *)
(** ** Python values *)

(** What a property of a record holds and what a cell of the table holds:
    [None] / NULL, an integer, or a text.  The [sqlite3] adapter maps
    [None] to NULL, [int] to INTEGER and [str] to TEXT, and back. *)
Inductive value : Type :=
| VNone
| VInt (z : Z)
| VStr (s : string).

#[global] Instance value_eq_dec : EqDecision value.
Proof. solve_decision. Defined.

#[global] Instance value_inhabited : Inhabited value := populate VNone.

(** [x is not None] *)
Definition is_not_None (v : value) : bool :=
  match v with VNone => false | _ => true end.

(** The exceptions the module can let escape.  The first four are Python's
    own classes with the message the code builds; the last two stand for
    the [sqlite3] errors of the same names. *)
Inductive exn : Type :=
| AttributeError (msg : string)
| Exception (msg : string)
| TypeError (msg : string)
| ValueError (msg : string)
| IntegrityError
| OperationalError.

#[global] Instance exn_eq_dec : EqDecision exn.
Proof. solve_decision. Defined.

(** The result of a call: a returned value or a raised exception. *)
Inductive outcome (A : Type) : Type :=
| Return (a : A)
| Raise (e : exn).
Arguments Return {A} a.
Arguments Raise {A} e.

(** [str(n)] for an integer. *)
Definition str_int (z : Z) : string := NilZero.string_of_int (Z.to_int z).

(** [str(self._id)], as the [%s] conversion of the error message has it. *)
Definition str_id (i : option Z) : string :=
  match i with None => "None" | Some z => str_int z end.

(** [type(x).__name__] *)
Definition type_name (v : value) : string :=
  match v with
  | VNone => "NoneType"
  | VInt _ => "int"
  | VStr _ => "str"
  end.

(** [sep.join(l)] *)
Fixpoint str_join (sep : string) (l : list string) : string :=
  match l with
  | [] => ""
  | [x] => x
  | x :: l' => x +:+ sep +:+ str_join sep l'
  end.

(** [s * n] *)
Fixpoint str_repeat (s : string) (n : nat) : string :=
  match n with
  | O => ""
  | S n' => s +:+ str_repeat s n'
  end.

(* ================================================================== *)
(** ** The store *)

(** A row of the outbox is the map from column name to cell; a column that
    is NULL is absent from the map.  The table maps the integer primary key
    [id] to its row.  A cell holds what was bound to it: no column affinity
    and no NOT NULL constraint is part of the model, and integers are not
    bounded.  The engine agrees with this on integers of 64 bits
    ([Sqlite.int64]) and on values of the type of their column
    ([Sqlite.kept_as_bound]); the statements that depend on it ask for
    them. *)
Abbreviation row := (gmap string value).
Abbreviation table := (gmap Z (gmap string value)).

Module Sqlite.

(** Reading a cell: NULL comes back as [None]. *)
Definition cell (r : row) (c : string) : value := default VNone (r !! c).

(** Modelled from the spec: the columns of the [outbox] table other than
    the key, as the schema table of the specification lists them (the
    CREATE TABLE statement is not among the sources). *)
Definition outbox_columns : list string :=
  ["request_time"; "toaddr"; "template_name"; "template_vars_json";
   "last_error"; "retry_count"; "sent_time"].

(** Modelled from the spec: the column defaults of the [outbox] table.
    [request_time] is the enqueue time, which the store fills in on insert
    (the code never writes it), and [retry_count] defaults to 0.  [now] is
    the store's clock reading, a text [YYYY-MM-DD HH:MM:SS]. *)
Definition default_row (now : string) : row :=
  <["request_time" := VStr now]> (<["retry_count" := VInt 0]> ∅).

(** SQLite's order on cells, as ORDER BY and the comparison operators use
    it: NULL first, then integers by value, then texts byte-wise. *)
Definition value_le (a b : value) : Prop :=
  match a, b with
  | VNone, _ => True
  | VInt _, VNone => False
  | VInt x, VInt y => (x <= y)%Z
  | VInt _, VStr _ => True
  | VStr _, VNone => False
  | VStr _, VInt _ => False
  | VStr s, VStr t => String.le s t
  end.

#[global] Instance value_le_dec : RelDecision value_le.
Proof. intros [] []; simpl; apply _. Defined.

(** [cell < ?] bound to an integer: NULL compares to nothing, a text is
    above every integer. *)
Definition lt_int (a : value) (m : Z) : bool :=
  match a with
  | VInt x => (x <? m)%Z
  | _ => false
  end.

(** [cell IS NULL] *)
Definition is_null (a : value) : bool :=
  match a with VNone => true | _ => false end.

(** A column list the engine accepts: not empty (an empty list leaves a
    statement that does not parse) and naming only columns of the table. *)
Definition columns_ok (cols : list string) : bool :=
  negb (bool_decide (cols = [])) &&
  forallb (fun c => bool_decide (c ∈ outbox_columns)) cols.

(** Writing one cell: binding [None] stores NULL. *)
Definition set_cell (new old : option value) : option value :=
  match new with
  | Some VNone => None
  | Some v => Some v
  | None => old
  end.

(** Writing the cells named by [props] into a row. *)
Definition write_cols (props : gmap string value) (r : row) : row :=
  merge set_cell props r.

(** The key given to a row inserted with a NULL [id]: one more than the
    largest key in use, or 1 in an empty table. *)
Definition next_rowid (db : table) : Z :=
  match (map_to_list db).*1 with
  | [] => 1
  | i :: l => foldr Z.max i l + 1
  end.

(** [SELECT c1, ..., cn FROM outbox WHERE id=?]  with [fetchone()] *)
Definition select_by_id (db : table) (cols : list string) (i : option Z)
  : outcome (option (list value)) :=
  if columns_ok cols then
    match i with
    | None => Return None
    | Some k => Return ((fun r => map (cell r) cols) <$> db !! k)
    end
  else Raise OperationalError.

(** [INSERT INTO outbox (id, c1, ..., cn) VALUES (?, ?, ..., ?)];
    the result carries [lastrowid]. *)
Definition insert (db : table) (i : option Z) (props : gmap string value)
    (now : string) : outcome (table * Z) :=
  if columns_ok (map_to_list props).*1 then
    let k := match i with Some k => k | None => next_rowid db end in
    match db !! k with
    | Some _ => Raise IntegrityError
    | None => Return (<[k := write_cols props (default_row now)]> db, k)
    end
  else Raise OperationalError.

(** [UPDATE outbox SET c1=?, ..., cn=? WHERE id=?] *)
Definition update (db : table) (props : gmap string value) (i : option Z)
  : outcome table :=
  if columns_ok (map_to_list props).*1 then
    match i with
    | None => Return db
    | Some k => Return (alter (write_cols props) k db)
    end
  else Raise OperationalError.

(** [DELETE FROM outbox WHERE id=?] *)
Definition delete_by_id (db : table) (i : option Z) : table :=
  match i with
  | None => db
  | Some k => delete k db
  end.

(** Rows in ORDER BY [request_time] ASC order: insertion into a sorted
    list.  Rows with equal keys come out in some order, as in SQL. *)
Definition by_request_time (a b : Z * row) : Prop :=
  value_le (cell a.2 "request_time") (cell b.2 "request_time").

#[global] Instance by_request_time_dec : RelDecision by_request_time.
Proof. intros a b; unfold by_request_time; apply _. Defined.

Fixpoint insert_sorted (x : Z * row) (l : list (Z * row)) : list (Z * row) :=
  match l with
  | [] => [x]
  | y :: l' =>
      if decide (by_request_time x y) then x :: l
      else y :: insert_sorted x l'
  end.

Definition order_by_request_time (l : list (Z * row)) : list (Z * row) :=
  foldr insert_sorted [] l.

(** [LIMIT ?]: a negative bound means no bound. *)
Definition limit {A} (n : Z) (l : list A) : list A :=
  if (n <? 0)%Z then l else take (Z.to_nat n) l.

(** The WHERE clause of the dequeue scan. *)
Definition unsent_where (max_retry : Z) (x : Z * row) : bool :=
  lt_int (cell x.2 "retry_count") max_retry && is_null (cell x.2 "sent_time").

(** [SELECT id FROM outbox WHERE retry_count<? AND sent_time is null
     ORDER BY request_time ASC LIMIT ?]  with [fetchall()] *)
Definition select_unsent (db : table) (max_retry max_results : Z) : list Z :=
  (limit max_results
     (order_by_request_time
        (List.filter (unsent_where max_retry) (map_to_list db)))).*1.

(** The integers the binding hands to the engine: those of a signed 64-bit
    word.  Binding another one raises [OverflowError] before the statement
    runs; the operations above have no such path. *)
Definition int64 (z : Z) : bool := (- 2 ^ 63 <=? z)%Z && (z <? 2 ^ 63)%Z.

(** Modelled from the spec: the store-native type of a column, as the
    schema table of the specification has it: [retry_count] is an integer,
    every other column a text. *)
Definition integer_column (c : string) : bool :=
  bool_decide (c = "retry_count").

(** A value its column keeps as it was bound: NULL, an integer of 64 bits in
    an integer column, a text in a text column.  (Another value may be
    converted by the affinity of the column: an integer bound to a text
    column is stored as its decimal text, a numeric text bound to an
    integer column as the number.  [set_cell] does not convert.) *)
Definition kept_as_bound (c : string) (v : value) : bool :=
  match v with
  | VNone => true
  | VInt z => integer_column c && int64 z
  | VStr _ => negb (integer_column c)
  end.

(** The parameters a statement asks for: its [?] marks.  (The statements of
    this module hold no literal and no comment that could hide one.)  The
    engine refuses an [execute] that binds another number of arguments. *)
Fixpoint placeholders (statement : string) : nat :=
  match statement with
  | EmptyString => 0
  | String c s' => (if decide (c = "?"%char) then 1 else 0) + placeholders s'
  end.

End Sqlite.

(* ================================================================== *)
(** ** [datetime]: the one format the module uses *)

(** A naive [datetime]. *)
Record datetime : Type := {
  year : nat; month : nat; day : nat;
  hour : nat; minute : nat; second : nat;
  microsecond : nat
}.

Module Datetime.

Definition is_leap (y : nat) : bool :=
  ((y mod 4 =? 0) && negb (y mod 100 =? 0) || (y mod 400 =? 0))%nat.

Definition days_in_month (y m : nat) : nat :=
  match m with
  | 2 => if is_leap y then 29 else 28
  | 4 | 6 | 9 | 11 => 30
  | _ => 31
  end%nat.

(** The ranges the [datetime] constructor enforces. *)
Definition valid (dt : datetime) : bool :=
  ((1 <=? year dt) && (year dt <? 100 * 100) &&
   (1 <=? month dt) && (month dt <=? 12) &&
   (1 <=? day dt) && (day dt <=? days_in_month (year dt) (month dt)) &&
   (hour dt <? 24) && (minute dt <? 60) && (second dt <? 60) &&
   (microsecond dt <? 1000 * 1000))%nat.

Definition digit (n : nat) : ascii := ascii_of_nat (48 + n mod 10).

Definition pad2 (n : nat) (k : string) : string :=
  String (digit (n / 10)) (String (digit n) k).

Definition pad4 (n : nat) (k : string) : string :=
  String (digit (n / 1000)) (String (digit (n / 100)) (pad2 n k)).

(** [dt.strftime('%Y-%m-%d %H:%M:%S')]: the fields zero-padded, the
    microseconds dropped.  (Years before 1000 are padded here; the C
    library under Python need not, and the lemmas below that go through
    this function ask for a four-digit year.) *)
Definition strftime (dt : datetime) : string :=
  pad4 (year dt) (String "-" (pad2 (month dt) (String "-" (pad2 (day dt)
    (String " " (pad2 (hour dt) (String ":" (pad2 (minute dt)
      (String ":" (pad2 (second dt) "")))))))))).

Definition digit_val (c : ascii) : option nat :=
  let n := nat_of_ascii c in
  if ((48 <=? n) && (n <=? 57))%nat then Some (n - 48)%nat else None.

(** Reads exactly [k] decimal digits. *)
Fixpoint read_digits (k : nat) (acc : nat) (s : string) : option (nat * string) :=
  match k with
  | O => Some (acc, s)
  | S k' =>
      match s with
      | String c s' =>
          d ← digit_val c; read_digits k' (10 * acc + d)%nat s'
      | EmptyString => None
      end
  end.

Definition expect (c : ascii) (s : string) : option string :=
  match s with
  | String c' s' => if decide (c' = c) then Some s' else None
  | EmptyString => None
  end.

(** [datetime.strptime(s, '%Y-%m-%d %H:%M:%S')] on the texts [strftime]
    writes: nineteen characters, every field at its full width.  [None]
    stands for the [ValueError] of a text that does not match or names no
    date.  (The library also reads fields written without their leading
    zero; no such text is written by this module.) *)
Definition strptime (s : string) : option datetime :=
  '(y, s) ← read_digits 4 0 s;
  s ← expect "-" s;
  '(m, s) ← read_digits 2 0 s;
  s ← expect "-" s;
  '(d, s) ← read_digits 2 0 s;
  s ← expect " " s;
  '(h, s) ← read_digits 2 0 s;
  s ← expect ":" s;
  '(mi, s) ← read_digits 2 0 s;
  s ← expect ":" s;
  '(sec, s) ← read_digits 2 0 s;
  let dt := {| year := y; month := m; day := d; hour := h; minute := mi;
               second := sec; microsecond := 0 |} in
  if decide (s = "") then
    if valid dt then Some dt else None
  else None.

End Datetime.

(* ================================================================== *)
(** ** [timedelta]: the difference of two [datetime]s *)

(** A [timedelta] in the normal form the library keeps: any number of days,
    the seconds within a day, the microseconds within a second. *)
Record timedelta : Type := {
  days : Z; seconds : Z; microseconds : Z
}.

Module Timedelta.

(** [timedelta(days, seconds, microseconds)] on integers: the microseconds
    carry into the seconds and the seconds into the days. *)
Definition new (d s us : Z) : timedelta :=
  let s := s + us / 1000000 in
  let us := us mod 1000000 in
  let d := d + s / 86400 in
  let s := s mod 86400 in
  {| days := d; seconds := s; microseconds := us |}.

(** The days before January 1st of year [y]. *)
Definition days_before_year (y : nat) : Z :=
  let y := Z.of_nat y - 1 in
  y * 365 + y / 4 - y / 100 + y / 400.

(** The days of year [y] before the first of month [m]. *)
Definition days_before_month (y m : nat) : nat :=
  foldr Nat.add 0%nat (map (Datetime.days_in_month y) (seq 1 (m - 1))).

(** [dt.toordinal()]: January 1st of year 1 is day 1. *)
Definition toordinal (dt : datetime) : Z :=
  days_before_year (year dt) +
  Z.of_nat (days_before_month (year dt) (month dt)) + Z.of_nat (day dt).

(** The seconds since midnight. *)
Definition second_of_day (dt : datetime) : Z :=
  Z.of_nat (second dt) + Z.of_nat (minute dt) * 60 + Z.of_nat (hour dt) * 3600.

(** [a - b] for two naive [datetime]s. *)
Definition sub (a b : datetime) : timedelta :=
  new (toordinal a - toordinal b)
      (second_of_day a - second_of_day b)
      (Z.of_nat (microsecond a) - Z.of_nat (microsecond b)).

End Timedelta.

(* ================================================================== *)
(** ** [json]: the values and the text [dumps] writes and [loads] reads *)

(** The values of the JSON data model: [None], booleans, integers, texts,
    lists, and dicts with text keys (a dict is the list of its items in
    insertion order, its keys distinct).  Floats are left out. *)
#[warnings="-register-all"]
Inductive json : Type :=
| JNull
| JBool (b : bool)
| JInt (z : Z)
| JStr (s : string)
| JList (l : list json)
| JDict (d : list (string * json)).

Module Json.

Definition quote : ascii := ascii_of_nat 34.
Definition backslash : ascii := ascii_of_nat 92.

(** A dict has distinct keys, at every depth. *)
Fixpoint wf (v : json) : bool :=
  match v with
  | JList l => forallb wf l
  | JDict d =>
      bool_decide (NoDup d.*1) &&
      forallb (fun kv => match kv with (_, x) => wf x end) d
  | _ => true
  end.

Definition hex_digit (n : nat) : ascii :=
  if (n <? 10)%nat then ascii_of_nat (48 + n) else ascii_of_nat (87 + n).

(** One character of a text as [dumps] writes it (with [ensure_ascii]):
    the quote and the backslash escaped, the usual short escapes, every
    other character outside [' '..'~'] as [\u00xx]; then the rest [k]. *)
Definition write_char (c : ascii) (k : string) : string :=
  let n := nat_of_ascii c in
  if decide (c = quote) then String backslash (String quote k)
  else if decide (c = backslash) then String backslash (String backslash k)
  else if (n =? 10)%nat then String backslash (String "n" k)
  else if (n =? 13)%nat then String backslash (String "r" k)
  else if (n =? 9)%nat then String backslash (String "t" k)
  else if (n =? 12)%nat then String backslash (String "f" k)
  else if (n =? 8)%nat then String backslash (String "b" k)
  else if ((n <? 32) || (126 <? n))%nat then
    String backslash (String "u" (String "0" (String "0"
      (String (hex_digit (n / 16)) (String (hex_digit (n mod 16)) k)))))
  else String c k.

Fixpoint write_chars (s : string) (k : string) : string :=
  match s with
  | EmptyString => k
  | String c s' => write_char c (write_chars s' k)
  end.

Definition write_string (s : string) (k : string) : string :=
  String quote (write_chars s (String quote k)).

(** [write v k] is the text of [v] followed by [k]: the separators are
    [", "] and [": "], as [dumps] has them by default. *)
Fixpoint write (v : json) (k : string) : string :=
  match v with
  | JNull => "null" +:+ k
  | JBool true => "true" +:+ k
  | JBool false => "false" +:+ k
  | JInt z => str_int z +:+ k
  | JStr s => write_string s k
  | JList l =>
      String "[" (
        (fix items (l : list json) (k : string) : string :=
           match l with
           | [] => k
           | x :: l' =>
               match l' with
               | [] => write x k
               | _ :: _ => write x (", " +:+ items l' k)
               end
           end) l (String "]" k))
  | JDict d =>
      String "{" (
        (fix members (d : list (string * json)) (k : string) : string :=
           match d with
           | [] => k
           | (key, x) :: d' =>
               match d' with
               | [] => write_string key (": " +:+ write x k)
               | _ :: _ =>
                   write_string key (": " +:+ write x (", " +:+ members d' k))
               end
           end) d (String "}" k))
  end.

(** The two local loops of [write], by name. *)
Fixpoint write_items (l : list json) (k : string) : string :=
  match l with
  | [] => k
  | x :: l' =>
      match l' with
      | [] => write x k
      | _ :: _ => write x (", " +:+ write_items l' k)
      end
  end.

Fixpoint write_members (d : list (string * json)) (k : string) : string :=
  match d with
  | [] => k
  | (key, x) :: d' =>
      match d' with
      | [] => write_string key (": " +:+ write x k)
      | _ :: _ =>
          write_string key (": " +:+ write x (", " +:+ write_members d' k))
      end
  end.

(** [json.dumps(v)] *)
Definition dumps (v : json) : string := write v "".

Definition is_ws (c : ascii) : bool :=
  let n := nat_of_ascii c in
  ((n =? 32) || (n =? 9) || (n =? 10) || (n =? 13))%nat.

Fixpoint skip_ws (s : string) : string :=
  match s with
  | String c s' => if is_ws c then skip_ws s' else s
  | EmptyString => EmptyString
  end.

Definition hex_val (c : ascii) : option nat :=
  let n := nat_of_ascii c in
  if ((48 <=? n) && (n <=? 57))%nat then Some (n - 48)%nat
  else if ((97 <=? n) && (n <=? 102))%nat then Some (n - 87)%nat
  else if ((65 <=? n) && (n <=? 70))%nat then Some (n - 55)%nat
  else None.

(** The characters that may follow a backslash, [u] apart. *)
Definition unescape (c : ascii) : option ascii :=
  if decide (c = quote) then Some quote
  else if decide (c = backslash) then Some backslash
  else if decide (c = "/"%char) then Some "/"%char
  else if decide (c = "b"%char) then Some (ascii_of_nat 8)
  else if decide (c = "f"%char) then Some (ascii_of_nat 12)
  else if decide (c = "n"%char) then Some (ascii_of_nat 10)
  else if decide (c = "r"%char) then Some (ascii_of_nat 13)
  else if decide (c = "t"%char) then Some (ascii_of_nat 9)
  else None.

(** The body of a text literal, from just after the opening quote: the
    decoded text and what follows the closing quote.  A raw control
    character ends the scan with an error, and so does a [\u] escape
    above 255, which a [string] here cannot hold. *)
Fixpoint scanstring (s : string) : option (string * string) :=
  match s with
  | EmptyString => None
  | String c s1 =>
      if decide (c = quote) then Some (EmptyString, s1)
      else if decide (c = backslash) then
        match s1 with
        | String "u" (String h1 (String h2 (String h3 (String h4 s2)))) =>
            a ← hex_val h1; b ← hex_val h2; e ← hex_val h3; f ← hex_val h4;
            let n := (((a * 16 + b) * 16 + e) * 16 + f)%nat in
            if (n <? 256)%nat then
              '(str, rest) ← scanstring s2;
              Some (String (ascii_of_nat n) str, rest)
            else None
        | String e s2 =>
            ch ← unescape e;
            '(str, rest) ← scanstring s2;
            Some (String ch str, rest)
        | EmptyString => None
        end
      else if (nat_of_ascii c <? 32)%nat then None
      else
        '(str, rest) ← scanstring s1;
        Some (String c str, rest)
  end.

Definition is_digit (c : ascii) : bool :=
  let n := nat_of_ascii c in ((48 <=? n) && (n <=? 57))%nat.

Fixpoint span_digits (s : string) : string * string :=
  match s with
  | String c s' =>
      if is_digit c then
        let '(d, r) := span_digits s' in (String c d, r)
      else (EmptyString, s)
  | EmptyString => (EmptyString, EmptyString)
  end.

(** [0|[1-9]\d*] *)
Definition parse_nat (s : string) : option (Z * string) :=
  match s with
  | String c s' =>
      if decide (c = "0"%char) then Some (0%Z, s')
      else if is_digit c then
        let '(ds, rest) := span_digits s in
        d ← NilEmpty.uint_of_string ds;
        Some (Z.of_uint d, rest)
      else None
  | EmptyString => None
  end.

(** What follows an integer literal opens neither a fraction nor an
    exponent (that would be a float, or no JSON text at all). *)
Definition number_end (s : string) : bool :=
  match s with
  | String c _ =>
      negb (bool_decide (c = "."%char) || bool_decide (c = "e"%char)
            || bool_decide (c = "E"%char))
  | EmptyString => true
  end.

Definition parse_int (s : string) : option (json * string) :=
  '(z, rest) ← match s with
               | String "-" s' =>
                   '(n, r) ← parse_nat s'; Some ((- n)%Z, r)
               | _ => parse_nat s
               end;
  if number_end rest then Some (JInt z, rest) else None.

Fixpoint strip_prefix (p s : string) : option string :=
  match p with
  | EmptyString => Some s
  | String a p' =>
      match s with
      | String b s' => if decide (a = b) then strip_prefix p' s' else None
      | EmptyString => None
      end
  end.

(** [d[k] = v] on a dict: a key already there keeps its place. *)
Fixpoint dict_set (d : list (string * json)) (k : string) (v : json)
  : list (string * json) :=
  match d with
  | [] => [(k, v)]
  | (k', v') :: d' =>
      if decide (k' = k) then (k', v) :: d' else (k', v') :: dict_set d' k v
  end.

(** [dict(pairs)] *)
Definition dict_of_pairs (pairs : list (string * json)) : list (string * json) :=
  foldl (fun d kv => dict_set d kv.1 kv.2) [] pairs.

(** The decoder: one value at the head of [s], and the text after it.
    [fuel] bounds the nesting of calls. *)
Fixpoint parse_value (fuel : nat) (s : string) : option (json * string) :=
  match fuel with
  | O => None
  | S fuel =>
      match s with
      | EmptyString => None
      | String c s' =>
          if decide (c = quote) then
            '(str, rest) ← scanstring s'; Some (JStr str, rest)
          else if decide (c = "{"%char) then
            match skip_ws s' with
            | EmptyString => None
            | String c1 s1 =>
                if decide (c1 = "}"%char) then Some (JDict [], s1)
                else
                  '(pairs, rest) ← parse_members fuel (String c1 s1);
                  Some (JDict (dict_of_pairs pairs), rest)
            end
          else if decide (c = "["%char) then
            match skip_ws s' with
            | EmptyString => None
            | String c1 s1 =>
                if decide (c1 = "]"%char) then Some (JList [], s1)
                else
                  '(l, rest) ← parse_items fuel (String c1 s1);
                  Some (JList l, rest)
            end
          else
            match strip_prefix "null" s with
            | Some rest => Some (JNull, rest)
            | None =>
            match strip_prefix "true" s with
            | Some rest => Some (JBool true, rest)
            | None =>
            match strip_prefix "false" s with
            | Some rest => Some (JBool false, rest)
            | None => parse_int s
            end end end
      end
  end
with parse_items (fuel : nat) (s : string) : option (list json * string) :=
  match fuel with
  | O => None
  | S fuel =>
      '(v, s1) ← parse_value fuel s;
      match skip_ws s1 with
      | EmptyString => None
      | String c s2 =>
          if decide (c = "]"%char) then Some ([v], s2)
          else if decide (c = ","%char) then
            '(l, rest) ← parse_items fuel (skip_ws s2);
            Some (v :: l, rest)
          else None
      end
  end
with parse_members (fuel : nat) (s : string)
  : option (list (string * json) * string) :=
  match fuel with
  | O => None
  | S fuel =>
      match s with
      | EmptyString => None
      | String c s0 =>
          if decide (c = quote) then
            '(key, s1) ← scanstring s0;
            match skip_ws s1 with
            | EmptyString => None
            | String c1 s2 =>
                if decide (c1 = ":"%char) then
                  '(v, s3) ← parse_value fuel (skip_ws s2);
                  match skip_ws s3 with
                  | EmptyString => None
                  | String c2 s4 =>
                      if decide (c2 = "}"%char) then Some ([(key, v)], s4)
                      else if decide (c2 = ","%char) then
                        '(d, rest) ← parse_members fuel (skip_ws s4);
                        Some ((key, v) :: d, rest)
                      else None
                  end
                else None
            end
          else None
      end
  end.

(** [json.loads(s)]; [None] stands for the [ValueError] of a text that
    does not parse.  Of two nested calls of the decoder at least one
    consumes a character, so twice the length of the text is fuel enough. *)
Definition loads (s : string) : option json :=
  '(v, rest) ← parse_value (S (2 * String.length s)) (skip_ws s);
  if decide (skip_ws rest = EmptyString) then Some v else None.

End Json.

(* ================================================================== *)
(** ** The classes *)

(** The state of an instance.  [_dict] holds whatever other attributes have
    been assigned on it; the cached connection [_conn] is left out, every
    connection being one to the same database. *)
Record instance : Type := {
  _id : option Z;
  _db_auto_props : list string;
  _birth_time_prop : string;
  _props : gmap string value;
  _in_db : bool;
  _dict : gmap string value
}.

Definition with_id (self : instance) (i : option Z) : instance :=
  {| _id := i; _db_auto_props := _db_auto_props self;
     _birth_time_prop := _birth_time_prop self; _props := _props self;
     _in_db := _in_db self; _dict := _dict self |}.

Definition with_props (self : instance) (p : gmap string value) : instance :=
  {| _id := _id self; _db_auto_props := _db_auto_props self;
     _birth_time_prop := _birth_time_prop self; _props := p;
     _in_db := _in_db self; _dict := _dict self |}.

Definition with_in_db (self : instance) (b : bool) : instance :=
  {| _id := _id self; _db_auto_props := _db_auto_props self;
     _birth_time_prop := _birth_time_prop self; _props := _props self;
     _in_db := b; _dict := _dict self |}.

Definition with_dict (self : instance) (d : gmap string value) : instance :=
  {| _id := _id self; _db_auto_props := _db_auto_props self;
     _birth_time_prop := _birth_time_prop self; _props := _props self;
     _in_db := _in_db self; _dict := d |}.

Definition with_birth_time_prop (self : instance) (n : string) : instance :=
  {| _id := _id self; _db_auto_props := _db_auto_props self;
     _birth_time_prop := n; _props := _props self;
     _in_db := _in_db self; _dict := _dict self |}.

(** A call on an instance leaves an outcome, the instance and the table. *)
Definition effect (A : Type) : Type := outcome A * instance * table.

Module KeyedSqliteThing.
Section methods.

(** The class attributes a subclass sets, and [str(type(self))]. *)
Variables (_db_required_props _db_optional_props : list string).
Variable type_self : string.

(** The property [_db_props]. *)
Definition _db_props : list string :=
  _db_required_props ++ _db_optional_props.

Definition __getattr__ (self : instance) (name : string) : outcome value :=
  if bool_decide (name ∉ _db_props) then
    Raise (AttributeError ("No property '" +:+ name +:+ "'"))
  else Return (default VNone (_props self !! name)).

(** Assignment to a name that is no declared property is an ordinary
    attribute assignment; it lands in [_dict].  (The fields of the record
    above are assigned by the methods themselves, never by name from
    outside.) *)
Definition __setattr__ (self : instance) (name : string) (v : value)
  : instance :=
  if bool_decide (name ∈ _db_props) then
    with_props self (<[name := v]> (_props self))
  else with_dict self (<[name := v]> (_dict self)).

(** [self.name] for a name that no class defines: the instance's own
    attributes first, then [__getattr__]. *)
Definition getattribute (self : instance) (name : string) : outcome value :=
  match _dict self !! name with
  | Some v => Return v
  | None => __getattr__ self name
  end.

(** The loop of [_load] over the selected row. *)
Definition load_row (props : list string) (r : list value)
    (acc : gmap string value) : gmap string value :=
  foldl (fun acc nv => if is_not_None nv.2 then <[nv.1 := nv.2]> acc else acc)
        acc (zip props r).

Definition _load (self : instance) (db : table) : outcome instance :=
  let props := (_db_props ++ _db_auto_props self)%list in
  match Sqlite.select_by_id db props (_id self) with
  | Raise e => Raise e
  | Return None => Return self
  | Return (Some r) =>
      Return (with_in_db (with_props self (load_row props r (_props self)))
                         true)
  end.

(** The instance as the assignments at the head of [__init__] leave it. *)
Definition blank (id : option Z) (auto_props : list string) : instance :=
  {| _id := id; _db_auto_props := auto_props; _birth_time_prop := "";
     _props := ∅; _in_db := false; _dict := ∅ |}.

Definition __init__ (db : table) (id : option Z) (auto_props : list string)
  : outcome instance :=
  let self := blank id auto_props in
  match id with
  | Some _ => _load self db
  | None => Return self
  end.

Definition _missing_props (self : instance) : list string :=
  List.filter (fun name => bool_decide (name ∉ dom (_props self)))
              _db_required_props.

Definition id (self : instance) : option Z := _id self.
Definition in_db (self : instance) : bool := _in_db self.

(** The argument of the [raise] in [delete] reads [self.self._id]: the
    attribute [self] of the instance is looked up first, and [_id] on
    what that gives. *)
Definition delete (self : instance) (db : table) : effect unit :=
  if negb (in_db self) then
    match getattribute self "self" with
    | Raise e => (Raise e, self, db)
    | Return v =>
        (Raise (AttributeError
                  ("'" +:+ type_name v +:+ "' object has no attribute '_id'")),
         self, db)
    end
  else
    let db' := Sqlite.delete_by_id db (_id self) in
    (Return tt, with_in_db self false, db').

(** [now] is the clock of the store at the time of the call. *)
Definition save (self : instance) (db : table) (now : string) : effect unit :=
  let missing := _missing_props self in
  if (0 <? List.length missing)%nat then
    let missing_str := str_join ", " missing in
    (Raise (Exception ("Cannot save " +:+ type_self +:+ " '" +:+
                       str_id (_id self) +:+ "' - missing settings: '" +:+
                       missing_str +:+ "'.")),
     self, db)
  else
    let props := _props self in
    if in_db self then
      match Sqlite.update db props (_id self) with
      | Raise e => (Raise e, self, db)
      | Return db' => (Return tt, self, db')
      end
    else
      match Sqlite.insert db (_id self) props now with
      | Raise e => (Raise e, self, db)
      | Return (db', lastid) =>
          let self1 :=
            match _id self with
            | None => with_id self (Some lastid)
            | Some _ => self
            end in
          (Return tt, with_in_db self1 true, db')
      end.

(** The texts of the statements.  [_db_table] is the class attribute of
    the subclass. *)
Variable _db_table : string.

Definition _id_key : string := "id".

Definition _where_id : string := " WHERE " +:+ _id_key +:+ "=?".

Definition _from_table_where_id : string :=
  " FROM " +:+ _db_table +:+ _where_id.

(** [self._id] as an argument bound to a statement. *)
Definition id_argument (self : instance) : value :=
  match _id self with
  | None => VNone
  | Some i => VInt i
  end.

(** The statement and the arguments [_load] hands to [_fetchone]. *)
Definition load_statement (self : instance) : string * list value :=
  let props := (_db_props ++ _db_auto_props self)%list in
  ("SELECT " +:+ str_join ", " props +:+ _from_table_where_id,
   [id_argument self]).

(** The statement and the arguments [delete] hands to [_exec]. *)
Definition delete_statement (self : instance) : string * list value :=
  ("DELETE" +:+ _from_table_where_id, [id_argument self]).

(** The statement and the arguments [save] hands to [_exec]: an UPDATE for
    a record with [in_db] true, an INSERT otherwise. *)
Definition save_statement (self : instance) : string * list value :=
  let props := (map_to_list (_props self)).*1 in
  let values := (map_to_list (_props self)).*2 in
  if in_db self then
    ("UPDATE " +:+ _db_table +:+ " SET " +:+ str_join "=?, " props +:+
     "=? " +:+ _where_id,
     (values ++ [id_argument self])%list)
  else
    ("INSERT INTO " +:+ _db_table +:+ " (" +:+ _id_key +:+ ", " +:+
     str_join ", " props +:+ ") VALUES (?" +:+
     str_repeat ",?" (List.length props) +:+ ")",
     ([id_argument self] ++ values)%list).

End methods.
End KeyedSqliteThing.

Module AgedKeyedSqliteThing.
Section methods.

Variables (_db_required_props _db_optional_props : list string).

Definition __init__ (db : table) (birth_time_prop : string) (id : option Z)
  : outcome instance :=
  match KeyedSqliteThing.__init__ _db_required_props _db_optional_props
          db id [birth_time_prop] with
  | Raise e => Raise e
  | Return self => Return (with_birth_time_prop self birth_time_prop)
  end.

Definition _get_time_property (self : instance) (name : string)
  : outcome (option datetime) :=
  match _props self !! name with
  | None => Return None
  | Some (VStr time_str) =>
      match Datetime.strptime time_str with
      | Some dt => Return (Some dt)
      | None =>
          Raise (ValueError ("time data '" +:+ time_str +:+
                             "' does not match format '%Y-%m-%d %H:%M:%S'"))
      end
  | Some v =>
      Raise (TypeError ("strptime() argument 1 must be str, not " +:+
                        type_name v))
  end.

Definition _set_time_property (self : instance) (name : string)
    (dt : datetime) : instance :=
  let time_str := Datetime.strftime dt in
  KeyedSqliteThing.__setattr__ _db_required_props _db_optional_props
    self name (VStr time_str).

(** The property [age]; [utcnow] is what [datetime.utcnow()] gives at the
    read.  With no birth time among the properties the subtraction has
    [None] on its right. *)
Definition age (self : instance) (utcnow : datetime) : outcome timedelta :=
  if negb (KeyedSqliteThing.in_db self) then Return (Timedelta.new 0 0 0)
  else
    match _get_time_property self (_birth_time_prop self) with
    | Raise e => Raise e
    | Return None =>
        Raise (TypeError ("unsupported operand type(s) for -: " +:+
                          "'datetime.datetime' and 'NoneType'"))
    | Return (Some birth) => Return (Timedelta.sub utcnow birth)
    end.

End methods.
End AgedKeyedSqliteThing.

Module PendingSend.

Definition _db_table : string := "outbox".
Definition _db_required_props : list string :=
  ["toaddr"; "template_name"; "template_vars_json"].
Definition _db_optional_props : list string :=
  ["last_error"; "retry_count"; "sent_time"].
Definition type_self : string :=
  "<class 'libfritter.sqlitewrapper.PendingSend'>".

(** The inherited methods, at the attributes of this class. *)
Definition _db_props : list string :=
  KeyedSqliteThing._db_props _db_required_props _db_optional_props.
Definition __getattr__ :=
  KeyedSqliteThing.__getattr__ _db_required_props _db_optional_props.
Definition __setattr__ :=
  KeyedSqliteThing.__setattr__ _db_required_props _db_optional_props.
Definition _missing_props :=
  KeyedSqliteThing._missing_props _db_required_props.
Definition delete :=
  KeyedSqliteThing.delete _db_required_props _db_optional_props.
Definition save :=
  KeyedSqliteThing.save _db_required_props type_self.
Definition _get_time_property := AgedKeyedSqliteThing._get_time_property.
Definition _set_time_property :=
  AgedKeyedSqliteThing._set_time_property
    _db_required_props _db_optional_props.
Definition age := AgedKeyedSqliteThing.age.
Definition getattribute :=
  KeyedSqliteThing.getattribute _db_required_props _db_optional_props.

(** The names this class and its bases define as properties: a read of one
    of them runs the property and never reaches [__getattr__]. *)
Definition class_properties : list string :=
  ["_db_props"; "id"; "in_db"; "age"; "retry_count"; "template_vars";
   "is_sent"; "sent_time"].

(** The declared properties that are read through [__getattr__]: those no
    class property shadows. *)
Definition plain_props : list string :=
  List.filter (fun name => bool_decide (name ∉ class_properties)) _db_props.
Definition load_statement :=
  KeyedSqliteThing.load_statement _db_required_props _db_optional_props
    _db_table.
Definition delete_statement := KeyedSqliteThing.delete_statement _db_table.
Definition save_statement := KeyedSqliteThing.save_statement _db_table.

(** [PendingSend(connector, id)] *)
Definition __init__ (db : table) (id : option Z) : outcome instance :=
  AgedKeyedSqliteThing.__init__ _db_required_props _db_optional_props
    db "request_time" id.

Definition retry_count (self : instance) : value :=
  default (VInt 0) (_props self !! "retry_count").

Definition template_vars (self : instance) : outcome (option json) :=
  let raw := default VNone (_props self !! "template_vars_json") in
  match raw with
  | VNone => Return None
  | VStr s =>
      match Json.loads s with
      | Some vars => Return (Some vars)
      | None => Raise (ValueError "No JSON object could be decoded")
      end
  | VInt _ =>
      Raise (TypeError "the JSON object must be str, not int")
  end.

Definition set_template_vars (self : instance) (v : json) : instance :=
  let str := Json.dumps v in
  with_props self (<["template_vars_json" := VStr str]> (_props self)).

Definition sent_time (self : instance) : outcome (option datetime) :=
  _get_time_property self "sent_time".

Definition is_sent (self : instance) : outcome bool :=
  match sent_time self with
  | Raise e => Raise e
  | Return t => Return (bool_decide (t ≠ None))
  end.

(** [now] is what [datetime.now()] gives at the call. *)
Definition mark_sent (self : instance) (now : datetime) : instance :=
  _set_time_property self "sent_time" now.

(** [x + 1] *)
Definition add_one (v : value) : outcome value :=
  match v with
  | VInt z => Return (VInt (z + 1))
  | _ =>
      Raise (TypeError ("unsupported operand type(s) for +=: '" +:+
                        type_name v +:+ "' and 'int'"))
  end.

(** [self.retry_count += 1]: the getter, the sum, then [__setattr__]. *)
Definition retried (self : instance) : outcome unit * instance :=
  match add_one (retry_count self) with
  | Raise e => (Raise e, self)
  | Return v => (Return tt, __setattr__ self "retry_count" v)
  end.

(** [for row in rows: yield PendingSend(connector, row[0])] *)
Fixpoint load_all (db : table) (ids : list Z) : outcome (list instance) :=
  match ids with
  | [] => Return []
  | i :: ids' =>
      match __init__ db (Some i) with
      | Raise e => Raise e
      | Return x =>
          match load_all db ids' with
          | Raise e => Raise e
          | Return l => Return (x :: l)
          end
      end
  end.

(** The dequeue scan, run to its end against one state of the table. *)
Definition Unsent (db : table) (max_retry max_results : Z)
  : outcome (list instance) :=
  let rows := Sqlite.select_unsent db max_retry max_results in
  load_all db rows.

(** The calls a holder of an instance can make on it. *)
Inductive call : Type :=
| Setattr (name : string) (v : value)
| SetTemplateVars (v : json)
| MarkSent (now : datetime)
| Retried
| Save (now : string)
| Delete.

Definition run (c : call) (self : instance) (db : table) : effect unit :=
  match c with
  | Setattr name v => (Return tt, __setattr__ self name v, db)
  | SetTemplateVars v => (Return tt, set_template_vars self v, db)
  | MarkSent now => (Return tt, mark_sent self now, db)
  | Retried => let '(o, self') := retried self in (o, self', db)
  | Save now => save self db now
  | Delete => delete self db
  end.

(** A sequence of calls; an exception is caught by the caller, who goes
    on with the instance as the failed call left it. *)
Fixpoint run_all (cs : list call) (self : instance) (db : table)
  : instance * table :=
  match cs with
  | [] => (self, db)
  | c :: cs' =>
      let '(_, self', db') := run c self db in run_all cs' self' db'
  end.

End PendingSend.

(* ================================================================== *)
(** ** The vocabulary of the statements *)

(** [self._props.get(name, None)]: how a property reads. *)
Definition prop_value (self : instance) (name : string) : value :=
  default VNone (_props self !! name).

(** Every key of [_props] is a declared property of [PendingSend], required
    or optional, or one of the auto-tracked fields of the instance. *)
Definition props_declared (self : instance) : Prop :=
  ∀ name, is_Some (_props self !! name) →
    name ∈ (PendingSend._db_required_props ++ PendingSend._db_optional_props
              ++ _db_auto_props self)%list.

(** An instance as the constructor of [PendingSend] and the calls on it
    leave it: [request_time] is its one auto-tracked field. *)
Definition is_PendingSend (self : instance) : Prop :=
  _db_auto_props self = ["request_time"] ∧ props_declared self.

(** All required properties are set. *)
Definition complete (self : instance) : Prop :=
  PendingSend._missing_props self = [].

(** The instance carries an identifier and the table has a row for it. *)
Definition row_present (self : instance) (db : table) : Prop :=
  ∃ i, _id self = Some i ∧ is_Some (db !! i).

(** A saved entry: a complete instance of [PendingSend] whose row is in
    the table. *)
Definition persisted (self : instance) (db : table) : Prop :=
  is_PendingSend self ∧ complete self ∧ _in_db self = true ∧
  row_present self db.

(** Two entries in creation-time order, as the store compares the
    [request_time] texts. *)
Definition entry_order (a b : instance) : Prop :=
  Sqlite.value_le (prop_value a "request_time") (prop_value b "request_time").

(** An entry built without an identifier and not saved yet: only declared
    properties have been written, the required ones among them, and
    neither the retry counter nor the sent time. *)
Definition fresh_entry (self : instance) : Prop :=
  _id self = None ∧ _in_db self = false ∧
  (∀ name, is_Some (_props self !! name) → name ∈ PendingSend._db_props) ∧
  complete self ∧
  _props self !! "retry_count" = None ∧ _props self !! "sent_time" = None.

(** What may follow a value inside a JSON text: the end of the text, a
    comma, or a closing bracket or brace. *)
Definition delimited (k : string) : Prop :=
  match k with
  | EmptyString => True
  | String c _ => c = ","%char ∨ c = "]"%char ∨ c = "}"%char
  end.

(** The instance holds only what the store keeps as bound: every property
    a value of the type of its column, and the identifier, when there is
    one, an integer of 64 bits. *)
Definition storable (self : instance) : bool :=
  forallb (fun nv => Sqlite.kept_as_bound nv.1 nv.2)
          (map_to_list (_props self)) &&
  match _id self with
  | Some i => Sqlite.int64 i
  | None => true
  end.

(** A call as a holder of an entry makes it: an assignment by name is one
    to a declared property.  (The attributes the class keeps for itself,
    [_id], [_props], [_in_db] and the like, are not assigned from outside.) *)
Definition public_call (c : PendingSend.call) : bool :=
  match c with
  | PendingSend.Setattr name _ => bool_decide (name ∈ PendingSend._db_props)
  | _ => true
  end.

(** ** Sample data *)

(** [PendingSend(connector)]: a new entry, nothing set. *)
Definition new_entry : instance :=
  with_birth_time_prop
    (KeyedSqliteThing.blank None ["request_time"]) "request_time".

(** A new entry with its three required properties set. *)
Definition sample_entry : instance :=
  PendingSend.set_template_vars
    (PendingSend.__setattr__
       (PendingSend.__setattr__ new_entry "toaddr" (VStr "ann@example.org"))
       "template_name" (VStr "welcome"))
    (JDict [("name", JStr "Ann"); ("count", JInt 3)]).

(** The outbox after [sample_entry] alone has been saved into it. *)
Definition sample_db : table :=
  (PendingSend.save sample_entry ∅ "2024-01-01 00:00:00").2.

(** The handle on [sample_entry] after that save.  Against [sample_db] it
    is a saved entry; against a table from which row 1 has since been
    deleted through another handle, it is a handle that outlived its row. *)
Definition saved_entry : instance :=
  with_in_db (with_id sample_entry (Some 1)) true.

(* ================================================================== *)
(** * Properties *)

(** ** The store *)

Lemma cell_write_cols props r c :
  Sqlite.cell (Sqlite.write_cols props r) c =
  match props !! c with
  | Some v => v
  | None => Sqlite.cell r c
  end.
Proof.
  unfold Sqlite.cell, Sqlite.write_cols.
  rewrite lookup_merge.
  destruct (props !! c) as [[]|] eqn:E; destruct (r !! c); reflexivity.
Qed.

Lemma columns_ok_elem cols c :
  Sqlite.columns_ok cols = true → c ∈ cols → c ∈ Sqlite.outbox_columns.
Proof.
  unfold Sqlite.columns_ok. intros [_ H]%andb_true_iff Hc.
  rewrite forallb_forall in H.
  apply list_elem_of_In, H in Hc. by apply bool_decide_eq_true in Hc.
Qed.

Lemma columns_ok_intro cols :
  cols ≠ [] → (∀ c, c ∈ cols → c ∈ Sqlite.outbox_columns) →
  Sqlite.columns_ok cols = true.
Proof.
  intros Hne H. unfold Sqlite.columns_ok. apply andb_true_iff. split.
  - apply negb_true_iff, bool_decide_eq_false. exact Hne.
  - apply forallb_forall. intros c Hc. apply bool_decide_eq_true, H.
    by apply list_elem_of_In.
Qed.

Lemma keys_elem (props : gmap string value) c :
  c ∈ (map_to_list props).*1 ↔ is_Some (props !! c).
Proof.
  rewrite list_elem_of_fmap. split.
  - intros [[k v] [-> H]]. apply elem_of_map_to_list in H. by exists v.
  - intros [v H]. exists (c, v). split; [done|]. by apply elem_of_map_to_list.
Qed.

(** The key handed out for a NULL [id] is not in use. *)
Lemma next_rowid_above (db : table) k :
  is_Some (db !! k) → (k < Sqlite.next_rowid db)%Z.
Proof.
  intros [r Hr]. unfold Sqlite.next_rowid.
  assert (Hin : k ∈ (map_to_list db).*1).
  { apply list_elem_of_fmap. exists (k, r). split; [done|].
    by apply elem_of_map_to_list. }
  destruct ((map_to_list db).*1) as [|i l]; [by apply elem_of_nil in Hin|].
  assert (Hmax : ∀ l i k, k ∈ i :: l → (k <= foldr Z.max i l)%Z).
  { clear. induction l as [|j l IH]; intros i k Hk; simpl.
    - apply list_elem_of_singleton in Hk. lia.
    - apply elem_of_cons in Hk as [->|Hk].
      + specialize (IH i i (list_elem_of_here _ _)). lia.
      + apply elem_of_cons in Hk as [->|Hk]; [lia|].
        specialize (IH i k (list_elem_of_further _ _ _ Hk)). lia. }
  specialize (Hmax l i k Hin). lia.
Qed.

Lemma next_rowid_fresh (db : table) : db !! Sqlite.next_rowid db = None.
Proof.
  destruct (db !! Sqlite.next_rowid db) eqn:E; [|done].
  assert (H := next_rowid_above db (Sqlite.next_rowid db)).
  rewrite E in H. specialize (H (mk_is_Some _ _ eq_refl)). lia.
Qed.

(** ** Loading a record *)

Lemma load_row_lookup cols (r : row) acc name :
  KeyedSqliteThing.load_row cols (map (Sqlite.cell r) cols) acc !! name =
  if decide (name ∈ cols ∧ Sqlite.cell r name ≠ VNone)
  then Some (Sqlite.cell r name) else acc !! name.
Proof.
  unfold KeyedSqliteThing.load_row.
  revert acc. induction cols as [|c cols IH]; intros acc.
  - destruct (decide _) as [[H _]|]; [|done]. by apply elem_of_nil in H.
  - cbn [map zip zip_with foldl fst snd]. rewrite IH. clear IH.
    destruct (decide (name = c)) as [->|Hne].
    + destruct (Sqlite.cell r c) eqn:E; cbn [is_not_None];
        repeat destruct (decide _); try done;
        try (rewrite lookup_insert_eq; done);
        exfalso; set_solver.
    + assert (Hacc : (if is_not_None (Sqlite.cell r c)
                      then <[c:=Sqlite.cell r c]> acc else acc) !! name
                     = acc !! name).
      { destruct (is_not_None _); [|done]. by rewrite lookup_insert_ne. }
      rewrite Hacc. repeat destruct (decide _); try done; exfalso; set_solver.
Qed.

Lemma init_None db :
  PendingSend.__init__ db None =
  Return (with_birth_time_prop
            (KeyedSqliteThing.blank None ["request_time"]) "request_time").
Proof. reflexivity. Qed.

Lemma init_absent (db : table) i :
  db !! i = None →
  PendingSend.__init__ db (Some i) =
  Return (with_birth_time_prop
            (KeyedSqliteThing.blank (Some i) ["request_time"]) "request_time").
Proof.
  intros H. unfold PendingSend.__init__, AgedKeyedSqliteThing.__init__,
    KeyedSqliteThing.__init__, KeyedSqliteThing._load. simpl.
  unfold Sqlite.select_by_id. simpl. rewrite H. reflexivity.
Qed.

Lemma init_found (db : table) i r :
  db !! i = Some r →
  ∃ self, PendingSend.__init__ db (Some i) = Return self ∧
    _id self = Some i ∧ _in_db self = true ∧
    _db_auto_props self = ["request_time"] ∧
    ∀ name, _props self !! name =
      if decide (name ∈ Sqlite.outbox_columns ∧ Sqlite.cell r name ≠ VNone)
      then Some (Sqlite.cell r name) else None.
Proof.
  intros H. unfold PendingSend.__init__, AgedKeyedSqliteThing.__init__,
    KeyedSqliteThing.__init__, KeyedSqliteThing._load. simpl.
  unfold Sqlite.select_by_id. simpl. rewrite H. simpl.
  eexists. split; [reflexivity|]. simpl. repeat split.
  intros name.
  change ([Sqlite.cell r "toaddr"; Sqlite.cell r "template_name";
           Sqlite.cell r "template_vars_json"; Sqlite.cell r "last_error";
           Sqlite.cell r "retry_count"; Sqlite.cell r "sent_time";
           Sqlite.cell r "request_time"])
    with (map (Sqlite.cell r) ["toaddr"; "template_name"; "template_vars_json";
            "last_error"; "retry_count"; "sent_time"; "request_time"]).
  rewrite load_row_lookup. rewrite lookup_empty.
  repeat case_decide; try done; exfalso;
    unfold Sqlite.outbox_columns in *; set_solver.
Qed.

Lemma init_returns db i : ∃ self, PendingSend.__init__ db i = Return self.
Proof.
  destruct i as [i|]; [|eexists; apply init_None].
  destruct (db !! i) as [r|] eqn:E.
  - destruct (init_found db i r E) as (self & H & _). eauto.
  - eexists. by apply init_absent.
Qed.

(** ** Saving with required properties missing *)

Lemma missing_props_elem self name :
  name ∈ PendingSend._missing_props self ↔
  name ∈ PendingSend._db_required_props ∧ _props self !! name = None.
Proof.
  unfold PendingSend._missing_props, KeyedSqliteThing._missing_props.
  rewrite list_elem_of_In, filter_In, <- list_elem_of_In.
  rewrite bool_decide_eq_true, not_elem_of_dom. tauto.
Qed.

Lemma save_unfold self db now :
  PendingSend.save self db now =
  if (0 <? List.length (PendingSend._missing_props self))%nat then
    (Raise (Exception ("Cannot save " +:+ PendingSend.type_self +:+ " '" +:+
                       str_id (_id self) +:+ "' - missing settings: '" +:+
                       str_join ", " (PendingSend._missing_props self) +:+ "'.")),
     self, db)
  else if _in_db self then
    match Sqlite.update db (_props self) (_id self) with
    | Raise e => (Raise e, self, db)
    | Return db' => (Return tt, self, db')
    end
  else
    match Sqlite.insert db (_id self) (_props self) now with
    | Raise e => (Raise e, self, db)
    | Return (db', lastid) =>
        (Return tt,
         with_in_db (match _id self with
                     | None => with_id self (Some lastid)
                     | Some _ => self
                     end) true, db')
    end.
Proof. reflexivity. Qed.

Lemma save_complete self db now :
  complete self →
  PendingSend.save self db now =
  if _in_db self then
    match Sqlite.update db (_props self) (_id self) with
    | Raise e => (Raise e, self, db)
    | Return db' => (Return tt, self, db')
    end
  else
    match Sqlite.insert db (_id self) (_props self) now with
    | Raise e => (Raise e, self, db)
    | Return (db', lastid) =>
        (Return tt,
         with_in_db (match _id self with
                     | None => with_id self (Some lastid)
                     | Some _ => self
                     end) true, db')
    end.
Proof. intros H. rewrite save_unfold. unfold complete in H. by rewrite H. Qed.

(** C5.  A [save()] on a record that lacks a required property raises the
    exception whose message lists the missing names, exactly the required
    names absent from the properties; the table is as it was and so is the
    instance, its [in_db] flag included. *)
Theorem save_missing_required (self : instance) (db : table) (now : string) :
  (∃ name, name ∈ PendingSend._db_required_props ∧ _props self !! name = None) →
  ∃ missing,
    PendingSend.save self db now =
      (Raise (Exception
                ("Cannot save " +:+ PendingSend.type_self +:+ " '" +:+
                 str_id (_id self) +:+ "' - missing settings: '" +:+
                 str_join ", " missing +:+ "'.")),
       self, db) ∧
    ∀ name, name ∈ missing ↔
      name ∈ PendingSend._db_required_props ∧ _props self !! name = None.
Proof.
  intros (name & Hreq & Hnone).
  exists (PendingSend._missing_props self). split.
  - rewrite save_unfold.
    assert (Hin : name ∈ PendingSend._missing_props self)
      by (by apply missing_props_elem).
    destruct (PendingSend._missing_props self) as [|x l];
      [by apply elem_of_nil in Hin | reflexivity].
  - intros n. apply missing_props_elem.
Qed.

Lemma save_missing_required_witness :
  ∃ missing,
    PendingSend.save
      (PendingSend.__setattr__
         (PendingSend.__setattr__
            (with_birth_time_prop
               (KeyedSqliteThing.blank None ["request_time"]) "request_time")
            "toaddr" (VStr "ann@example.org"))
         "template_name" (VStr "welcome"))
      ∅ "2024-01-01 00:00:00" =
      (Raise (Exception
                ("Cannot save " +:+ PendingSend.type_self +:+ " '" +:+
                 "None" +:+ "' - missing settings: '" +:+
                 str_join ", " missing +:+ "'.")),
       PendingSend.__setattr__
         (PendingSend.__setattr__
            (with_birth_time_prop
               (KeyedSqliteThing.blank None ["request_time"]) "request_time")
            "toaddr" (VStr "ann@example.org"))
         "template_name" (VStr "welcome"),
       ∅) ∧
    "template_vars_json" ∈ missing.
Proof.
  destruct (save_missing_required
    (PendingSend.__setattr__
         (PendingSend.__setattr__
            (with_birth_time_prop
               (KeyedSqliteThing.blank None ["request_time"]) "request_time")
            "toaddr" (VStr "ann@example.org"))
         "template_name" (VStr "welcome"))
    ∅ "2024-01-01 00:00:00") as (missing & H1 & H2).
  - exists "template_vars_json". split; [|reflexivity].
    unfold PendingSend._db_required_props.
    repeat (apply list_elem_of_here || apply list_elem_of_further).
  - exists missing. split; [exact H1|]. apply H2. split; [|reflexivity].
    unfold PendingSend._db_required_props.
    repeat (apply list_elem_of_here || apply list_elem_of_further).
Defined.

(** ** Deleting *)

Lemma delete_unfold self db :
  PendingSend.delete self db =
  if negb (_in_db self) then
    match KeyedSqliteThing.getattribute PendingSend._db_required_props
            PendingSend._db_optional_props self "self" with
    | Raise e => (Raise e, self, db)
    | Return v =>
        (Raise (AttributeError
                  ("'" +:+ type_name v +:+ "' object has no attribute '_id'")),
         self, db)
    end
  else (Return tt, with_in_db self false, Sqlite.delete_by_id db (_id self)).
Proof. reflexivity. Qed.

(** On a record that is in the table, [delete()] removes the row of its
    identifier and clears the flag; identifier and properties stay. *)
Lemma delete_in_db self db :
  _in_db self = true →
  ∃ self' db',
    PendingSend.delete self db = (Return tt, self', db') ∧
    _in_db self' = false ∧ _id self' = _id self ∧ _props self' = _props self ∧
    (∀ i, _id self = Some i → db' !! i = None) ∧
    (∀ j, _id self ≠ Some j → db' !! j = db !! j).
Proof.
  intros H. rewrite delete_unfold, H. simpl.
  eexists _, _. split; [reflexivity|]. simpl. repeat split.
  - intros i ->. simpl. apply lookup_delete_eq.
  - intros j Hj. destruct (_id self) as [i|]; simpl; [|done].
    apply lookup_delete_ne. congruence.
Qed.

(** C6.  What [delete()] does on a record with [in_db] false: the message
    of the exception it means to raise reads [self.self._id], and looking
    up the attribute [self] fails first, so what escapes is an
    [AttributeError] and never the [Exception] that says the record is not
    in the database.  Nothing is changed. *)
Theorem delete_not_in_db (self : instance) (db : table) :
  _in_db self = false →
  (∃ msg, PendingSend.delete self db = (Raise (AttributeError msg), self, db)) ∧
  (∀ msg, PendingSend.delete self db ≠ (Raise (Exception msg), self, db)).
Proof.
  intros H.
  assert (Hex : ∃ msg, PendingSend.delete self db
                       = (Raise (AttributeError msg), self, db)).
  { rewrite delete_unfold, H. simpl.
    unfold KeyedSqliteThing.getattribute, KeyedSqliteThing.__getattr__.
    destruct (_dict self !! "self"); [eauto|].
    destruct (bool_decide _); eauto. }
  split; [exact Hex|].
  destruct Hex as [msg' ->]. intros msg. discriminate.
Qed.

Lemma delete_not_in_db_witness :
  PendingSend.delete
    (with_birth_time_prop
       (KeyedSqliteThing.blank None ["request_time"]) "request_time") ∅
  ≠ (Raise (Exception "not in database"),
     with_birth_time_prop
       (KeyedSqliteThing.blank None ["request_time"]) "request_time", ∅).
Proof.
  apply (delete_not_in_db
           (with_birth_time_prop
              (KeyedSqliteThing.blank None ["request_time"]) "request_time") ∅).
  reflexivity.
Defined.

(** On a record never saved the exception is the one of an unknown
    property. *)
Example delete_blank :
  PendingSend.delete
    (with_birth_time_prop
       (KeyedSqliteThing.blank None ["request_time"]) "request_time") ∅
  = (Raise (AttributeError "No property 'self'"),
     with_birth_time_prop
       (KeyedSqliteThing.blank None ["request_time"]) "request_time", ∅).
Proof. reflexivity. Qed.

(** ** The keys of the properties *)

Lemma props_declared_ext self self' :
  _props self' = _props self → _db_auto_props self' = _db_auto_props self →
  props_declared self → props_declared self'.
Proof. unfold props_declared. intros -> ->. auto. Qed.

Lemma props_declared_insert self name v :
  name ∈ PendingSend._db_props →
  props_declared self →
  props_declared (with_props self (<[name := v]> (_props self))).
Proof.
  unfold props_declared. intros Hname H n.
  cbn [with_props _props _db_auto_props].
  destruct (decide (name = n)) as [<-|Hne].
  - intros _. unfold PendingSend._db_props, KeyedSqliteThing._db_props in Hname.
    apply elem_of_app in Hname as [?|?]; apply elem_of_app;
      [by left | right; apply elem_of_app; by left].
  - rewrite lookup_insert_ne by done. apply H.
Qed.

Lemma setattr_declared self name v :
  props_declared self → props_declared (PendingSend.__setattr__ self name v).
Proof.
  intros H. unfold PendingSend.__setattr__, KeyedSqliteThing.__setattr__.
  destruct (bool_decide _) eqn:E.
  - apply props_declared_insert; [|done]. by apply bool_decide_eq_true in E.
  - by apply (props_declared_ext self).
Qed.

Lemma save_instance self db now :
  ∃ i b, (PendingSend.save self db now).1.2 = with_in_db (with_id self i) b.
Proof.
  rewrite save_unfold.
  assert (Hid : ∀ s : instance, s = with_in_db (with_id s (_id s)) (_in_db s))
    by (by intros []).
  destruct (0 <? _)%nat; [simpl; eauto|].
  destruct (_in_db self) eqn:Hin.
  - destruct (Sqlite.update _ _ _); simpl; eauto.
  - destruct (Sqlite.insert _ _ _ _) as [[db' k]|]; simpl; [|eauto].
    destruct (_id self) eqn:Hi; simpl.
    + exists (Some z), true. destruct self; simpl in *. by subst.
    + by exists (Some k), true.
Qed.

Lemma run_declared c self db :
  props_declared self → props_declared (PendingSend.run c self db).1.2.
Proof.
  intros H. destruct c as [name v|v|now| |now| ]; simpl.
  - by apply setattr_declared.
  - apply props_declared_insert; [|done].
    unfold PendingSend._db_props, KeyedSqliteThing._db_props,
      PendingSend._db_required_props. set_solver.
  - by apply setattr_declared.
  - unfold PendingSend.retried.
    destruct (PendingSend.add_one _); simpl; [|done].
    by apply setattr_declared.
  - destruct (save_instance self db now) as (i & b & ->).
    by apply (props_declared_ext self).
  - rewrite delete_unfold. destruct (negb _).
    + destruct (KeyedSqliteThing.getattribute _ _ _ _); done.
    + by apply (props_declared_ext self).
Qed.

Lemma init_declared db i self :
  PendingSend.__init__ db i = Return self → is_PendingSend self.
Proof.
  intros H. destruct i as [i|].
  - destruct (db !! i) as [r|] eqn:E.
    + destruct (init_found db i r E) as (s & Hs & _ & _ & Hauto & Hp).
      rewrite Hs in H. injection H as <-. split; [done|].
      intros name [v Hv]. rewrite Hp in Hv. rewrite Hauto.
      destruct (decide _) as [[Hc _]|]; [|done].
      unfold Sqlite.outbox_columns in Hc.
      unfold PendingSend._db_required_props, PendingSend._db_optional_props.
      set_solver.
    + rewrite (init_absent db i E) in H. injection H as <-.
      split; [done|]. intros name [v Hv]. by simpl in Hv.
  - rewrite init_None in H. injection H as <-.
    split; [done|]. intros name [v Hv]. by simpl in Hv.
Qed.

(** C9.  Construction (with the load it performs) leaves every key of
    [_props] among the required, the optional and the auto-tracked names,
    and every call on the instance (a property write, setting
    [template_vars], [mark_sent], [retried], [save], [delete]) keeps it so,
    whatever the table holds and whether or not the call raises. *)
Theorem props_declared_invariant :
  (∀ db id self, PendingSend.__init__ db id = Return self →
                 props_declared self) ∧
  (∀ c self db, props_declared self →
                props_declared (PendingSend.run c self db).1.2).
Proof.
  split.
  - intros db i self H. by apply (init_declared db i).
  - intros c self db. apply run_declared.
Qed.

Lemma props_declared_invariant_witness :
  props_declared
    (PendingSend.run PendingSend.Retried
       (with_birth_time_prop
          (KeyedSqliteThing.blank None ["request_time"]) "request_time") ∅).1.2.
Proof.
  apply (proj2 props_declared_invariant).
  apply (proj1 props_declared_invariant ∅ None). reflexivity.
Defined.

(** ** Saving a record that is in the table *)



(** ** Save, then load *)

Lemma save_returns_row self db now self' db' :
  complete self →
  (_in_db self = true → row_present self db) →
  PendingSend.save self db now = (Return tt, self', db') →
  ∃ i r, _id self' = Some i ∧ db' !! i = Some r ∧
    (∀ j, j ≠ i → db' !! j = db !! j) ∧
    (∀ name, is_Some (_props self !! name) → name ∈ Sqlite.outbox_columns) ∧
    (∀ name v, _props self !! name = Some v → Sqlite.cell r name = v) ∧
    (∀ name, _props self !! name = None →
       Sqlite.cell r name =
       Sqlite.cell (if _in_db self then default ∅ (db !! i)
                    else Sqlite.default_row now) name).
Proof.
  intros Hc Hsync. rewrite (save_complete _ _ _ Hc).
  destruct (_in_db self) eqn:Hin.
  - destruct (Hsync eq_refl) as (i & Hi & r & Hr).
    unfold Sqlite.update.
    destruct (Sqlite.columns_ok _) eqn:Hcols; [|discriminate].
    rewrite Hi. intros [= <- <-].
    exists i, (Sqlite.write_cols (_props self) r). split; [done|].
    split; [by rewrite lookup_alter_eq, Hr|].
    split; [intros j Hj; by apply lookup_alter_ne|].
    split; [intros name Hn; eapply columns_ok_elem; [done|by apply keys_elem]|].
    split.
    + intros name v Hv. by rewrite cell_write_cols, Hv.
    + intros name Hn. by rewrite cell_write_cols, Hn, Hr.
  - unfold Sqlite.insert.
    destruct (Sqlite.columns_ok _) eqn:Hcols; [|discriminate].
    assert (Hgo : ∀ k,
      match db !! k with
      | Some _ => Raise IntegrityError
      | None => Return (<[k:=Sqlite.write_cols (_props self)
                              (Sqlite.default_row now)]> db, k)
      end = Return (db', k) →
      db' !! k = Some (Sqlite.write_cols (_props self) (Sqlite.default_row now))
      ∧ ∀ j, j ≠ k → db' !! j = db !! j).
    { intros k. destruct (db !! k); [discriminate|]. intros [= <-].
      split; [by rewrite lookup_insert_eq|].
      intros j Hj. by apply lookup_insert_ne. }
    intros Hs.
    assert (Hk : ∃ k, _id self' = Some k ∧
      db' !! k = Some (Sqlite.write_cols (_props self) (Sqlite.default_row now))
      ∧ ∀ j, j ≠ k → db' !! j = db !! j).
    { destruct (_id self) as [i0|] eqn:Hid.
      - destruct (db !! i0) eqn:Hk; [discriminate|].
        injection Hs as <- <-. exists i0. split; [done|].
        apply Hgo. by rewrite Hk.
      - destruct (db !! Sqlite.next_rowid db) eqn:Hk; [discriminate|].
        injection Hs as <- <-. exists (Sqlite.next_rowid db). split; [done|].
        apply Hgo. by rewrite Hk. }
    destruct Hk as (k & Hid' & Hrow & Hother).
    exists k, (Sqlite.write_cols (_props self) (Sqlite.default_row now)).
    split; [done|]. split; [done|]. split; [done|].
    split; [intros name Hn; eapply columns_ok_elem; [done|by apply keys_elem]|].
    split.
    + intros name v Hv. by rewrite cell_write_cols, Hv.
    + intros name Hn. by rewrite cell_write_cols, Hn.
Qed.




(** ** The order of the scan *)

#[global] Instance value_le_total : Total Sqlite.value_le.
Proof.
  intros [|x|s] [|y|t]; simpl; auto.
  - lia.
  - apply (total String.le).
Qed.

#[global] Instance value_le_trans : Transitive Sqlite.value_le.
Proof.
  intros [|x|s] [|y|t] [|z|u]; simpl; try done.
  - lia.
  - apply (transitivity (R := String.le)).
Qed.

#[global] Instance value_le_antisym : AntiSymm (=) Sqlite.value_le.
Proof.
  intros [|x|s] [|y|t]; simpl; try done.
  - intros. f_equal. lia.
  - intros H1 H2. f_equal. by apply (anti_symm String.le).
Qed.

#[global] Instance by_request_time_total : Total Sqlite.by_request_time.
Proof. intros a b. apply (total Sqlite.value_le). Qed.

#[global] Instance by_request_time_trans : Transitive Sqlite.by_request_time.
Proof. intros a b c. apply (transitivity (R := Sqlite.value_le)). Qed.

Lemma insert_sorted_perm x l : Sqlite.insert_sorted x l ≡ₚ x :: l.
Proof.
  induction l as [|y l IH]; simpl; [done|].
  destruct (decide _); [done|]. rewrite IH. apply Permutation_swap.
Qed.

Lemma order_by_perm l : Sqlite.order_by_request_time l ≡ₚ l.
Proof.
  induction l as [|x l IH]; simpl; [done|].
  by rewrite insert_sorted_perm, IH.
Qed.

Lemma insert_sorted_Sorted x l :
  Sorted Sqlite.by_request_time l →
  Sorted Sqlite.by_request_time (Sqlite.insert_sorted x l).
Proof.
  induction 1 as [|y l Hs IH Hhd]; simpl.
  - repeat constructor.
  - destruct (decide _) as [Hxy|Hxy].
    + constructor; [by constructor|]. by constructor.
    + constructor; [done|].
      assert (Hyx : Sqlite.by_request_time y x)
        by (by destruct (total Sqlite.by_request_time x y)).
      destruct Hhd as [|z l Hyz]; simpl.
      * by constructor.
      * destruct (decide _); by constructor.
Qed.

Lemma order_by_Sorted l :
  Sorted Sqlite.by_request_time (Sqlite.order_by_request_time l).
Proof.
  induction l as [|x l IH]; simpl; [constructor|].
  by apply insert_sorted_Sorted.
Qed.

Lemma Sorted_take {A} (R : relation A) n l :
  Sorted R l → Sorted R (take n l).
Proof.
  intros H. revert n. induction H as [|x l Hs IH Hhd]; intros [|n]; simpl;
    try constructor; [apply IH|].
  destruct Hhd; destruct n; simpl; by constructor.
Qed.

Lemma limit_Sorted {A} (R : relation A) n l :
  Sorted R l → Sorted R (Sqlite.limit n l).
Proof.
  intros H. unfold Sqlite.limit. destruct (n <? 0)%Z; [done|].
  by apply Sorted_take.
Qed.

Lemma limit_subseteq {A} n (l : list A) x : x ∈ Sqlite.limit n l → x ∈ l.
Proof.
  unfold Sqlite.limit. destruct (n <? 0)%Z; [done|]. apply subseteq_take.
Qed.

Lemma limit_length {A} n (l : list A) :
  (0 <= n)%Z → (Z.of_nat (List.length (Sqlite.limit n l)) <= n)%Z.
Proof.
  intros Hn. unfold Sqlite.limit.
  destruct (n <? 0)%Z eqn:E; [apply Z.ltb_lt in E; lia|].
  rewrite length_take. lia.
Qed.

(** The rows the scan selects, before their keys are projected out. *)
Lemma select_unsent_rows db m n :
  ∃ rows : list (Z * row),
    Sqlite.select_unsent db m n = rows.*1 ∧
    Sorted Sqlite.by_request_time rows ∧
    (∀ x, x ∈ rows → db !! x.1 = Some x.2 ∧ Sqlite.unsent_where m x = true) ∧
    ((0 <= n)%Z → (Z.of_nat (List.length rows) <= n)%Z).
Proof.
  eexists. split; [reflexivity|]. split; [|split].
  - apply limit_Sorted, order_by_Sorted.
  - intros [i r] Hx. apply limit_subseteq in Hx.
    rewrite order_by_perm in Hx.
    apply list_elem_of_In, filter_In in Hx as [Hx Hw].
    apply list_elem_of_In, elem_of_map_to_list in Hx. done.
  - apply limit_length.
Qed.

(** ** The entries the scan yields *)

Lemma load_all_returns db ids :
  ∃ l, PendingSend.load_all db ids = Return l ∧
       Forall2 (fun i e => PendingSend.__init__ db (Some i) = Return e) ids l.
Proof.
  induction ids as [|i ids (l & Hl & HF)]; simpl.
  - exists []. split; [done|constructor].
  - destruct (init_returns db (Some i)) as [e He]. rewrite He, Hl.
    exists (e :: l). split; [done|]. by constructor.
Qed.

Lemma Sorted_Forall2 {A B} (R : relation A) (S : relation B)
    (P : A → B → Prop) xs ys :
  (∀ x x' y y', P x y → P x' y' → R x x' → S y y') →
  Forall2 P xs ys → Sorted R xs → Sorted S ys.
Proof.
  intros HRS HF. induction HF as [|x y xs ys Hxy HF IH]; intros Hs.
  - constructor.
  - apply Sorted_inv in Hs as [Hs Hhd]. constructor; [by apply IH|].
    destruct HF as [|x' y' xs ys Hxy' HF]; constructor.
    apply HdRel_inv in Hhd. by apply (HRS x x').
Qed.

Lemma Forall2_with_Forall {A B} (P : A → B → Prop) (Q : A → Prop) xs ys :
  Forall2 P xs ys → Forall Q xs → Forall2 (fun x y => Q x ∧ P x y) xs ys.
Proof.
  induction 1; intros HQ; [constructor|].
  apply Forall_cons in HQ as [??]. constructor; auto.
Qed.

(** What an entry loaded from a row of the scan looks like. *)
Lemma scanned_entry db m (x : Z * row) e :
  db !! x.1 = Some x.2 → Sqlite.unsent_where m x = true →
  PendingSend.__init__ db (Some x.1) = Return e →
  _id e = Some x.1 ∧ _in_db e = true ∧
  (∃ c, PendingSend.retry_count e = VInt c ∧ (c < m)%Z) ∧
  _props e !! "sent_time" = None ∧
  PendingSend.is_sent e = Return false ∧
  prop_value e "request_time" = Sqlite.cell x.2 "request_time".
Proof.
  destruct x as [i r]. simpl. intros Hr Hw He.
  destruct (init_found db i r Hr) as (e' & He' & Hid & Hin & _ & Hp).
  rewrite He in He'. injection He' as <-.
  apply andb_true_iff in Hw as [Hlt Hnull]. simpl in Hlt, Hnull.
  split; [done|]. split; [done|].
  assert (Hst : _props e !! "sent_time" = None).
  { rewrite Hp. destruct (decide _) as [[_ Hn]|]; [|done].
    by destruct (Sqlite.cell r "sent_time"). }
  split; [|split; [done|split]].
  - destruct (Sqlite.cell r "retry_count") as [|c|] eqn:E; try done.
    exists c. split; [|by apply Z.ltb_lt].
    unfold PendingSend.retry_count. rewrite Hp, E.
    destruct (decide _) as [|Hn]; [done|]. destruct Hn. split; [|done].
    unfold Sqlite.outbox_columns. set_solver.
  - unfold PendingSend.is_sent, PendingSend.sent_time,
      PendingSend._get_time_property,
      AgedKeyedSqliteThing._get_time_property.
    by rewrite Hst.
  - unfold prop_value. rewrite Hp.
    destruct (decide _) as [|Hn]; [done|]. simpl.
    destruct (decide (Sqlite.cell r "request_time" = VNone)) as [->|Hne];
      [done|].
    destruct Hn. split; [|done]. unfold Sqlite.outbox_columns. set_solver.
Qed.

Lemma unsent_returns db m n :
  ∃ (rows : list (Z * row)) l,
    PendingSend.Unsent db m n = Return l ∧
    Sqlite.select_unsent db m n = rows.*1 ∧
    Sorted Sqlite.by_request_time rows ∧
    ((0 <= n)%Z → (Z.of_nat (List.length rows) <= n)%Z) ∧
    Forall2 (fun x e =>
               (db !! x.1 = Some x.2 ∧ Sqlite.unsent_where m x = true) ∧
               PendingSend.__init__ db (Some x.1) = Return e) rows l.
Proof.
  destruct (select_unsent_rows db m n) as (rows & Hsel & Hs & Hrows & Hlen).
  unfold PendingSend.Unsent. rewrite Hsel.
  destruct (load_all_returns db rows.*1) as (l & Hl & HF).
  exists rows, l. split; [done|]. split; [done|]. split; [done|].
  split; [done|].
  apply Forall2_fmap_l in HF.
  apply (Forall2_with_Forall _ _ _ _ HF). apply Forall_forall.
  intros x Hx. by apply Hrows.
Qed.

(** C2, as the code has it.  The scan returns, for every table and all
    [max_retry] and [max_results]; every entry it yields has a retry count
    below [max_retry] and no sent time; the entries come in non-decreasing
    [request_time] order; and there are at most [max_results] of them when
    [max_results] is not negative. *)
Theorem unsent_scan (db : table) (max_retry max_results : Z) :
  ∃ l,
    PendingSend.Unsent db max_retry max_results = Return l ∧
    (∀ e, e ∈ l →
       (∃ c, PendingSend.retry_count e = VInt c ∧ (c < max_retry)%Z) ∧
       _props e !! "sent_time" = None ∧
       PendingSend.is_sent e = Return false) ∧
    Sorted entry_order l ∧
    ((0 <= max_results)%Z → (Z.of_nat (List.length l) <= max_results)%Z).
Proof.
  destruct (unsent_returns db max_retry max_results)
    as (rows & l & Hl & _ & Hs & Hlen & HF).
  exists l. split; [done|]. split; [|split].
  - intros e He. apply list_elem_of_lookup in He as [k He].
    destruct (Forall2_lookup_r _ _ _ _ _ HF He) as (x & _ & [[Hr Hw] Hi]).
    destruct (scanned_entry db max_retry x e Hr Hw Hi)
      as (_ & _ & H1 & H2 & H3 & _).
    done.
  - refine (Sorted_Forall2 _ _ _ _ _ _ HF Hs).
    intros x x' y y' Hxy Hxy' HR.
    destruct Hxy as [[Hr Hw] Hi], Hxy' as [[Hr' Hw'] Hi'].
    destruct (scanned_entry db max_retry x y Hr Hw Hi)
      as (_ & _ & _ & _ & _ & Ht).
    destruct (scanned_entry db max_retry x' y' Hr' Hw' Hi')
      as (_ & _ & _ & _ & _ & Ht').
    unfold entry_order. rewrite Ht, Ht'. exact HR.
  - intros Hn. rewrite <- (Forall2_length _ _ _ HF). by apply Hlen.
Qed.

Lemma unsent_scan_witness :
  ∃ l,
    PendingSend.Unsent sample_db 5 50 = Return l ∧
    (Z.of_nat (List.length l) <= 50)%Z.
Proof.
  destruct (unsent_scan sample_db 5 50) as (l & Hl & _ & _ & Hlen).
  exists l. split; [exact Hl|]. apply Hlen. lia.
Defined.

(** C2, as stated, fails for a negative [max_results]: LIMIT with a
    negative bound is no bound, and the one pending entry of [sample_db]
    is yielded by [Unsent(connector, 5, -1)]. *)
Lemma unsent_negative_limit :
  ¬ (∀ (db : table) (max_retry max_results : Z) l,
       PendingSend.Unsent db max_retry max_results = Return l →
       (∀ e, e ∈ l →
          (∃ c, PendingSend.retry_count e = VInt c ∧ (c < max_retry)%Z) ∧
          _props e !! "sent_time" = None) ∧
       (Z.of_nat (List.length l) <= max_results)%Z ∧
       Sorted entry_order l).
Proof.
  intros H.
  assert (E : ∃ e, PendingSend.Unsent sample_db 5 (-1) = Return [e])
    by (eexists; vm_compute; reflexivity).
  destruct E as [e E].
  destruct (H sample_db 5 (-1) [e] E) as (_ & Hlen & _).
  simpl in Hlen. lia.
Qed.

(** ** Time stamps *)

Lemma digit_val_digit n :
  Datetime.digit_val (Datetime.digit n) = Some (n mod 10)%nat.
Proof.
  unfold Datetime.digit_val, Datetime.digit.
  assert (Hlt : (n mod 10 < 10)%nat) by (apply Nat.mod_upper_bound; lia).
  rewrite nat_ascii_embedding by lia.
  destruct (48 <=? 48 + n mod 10)%nat eqn:E1; [|apply Nat.leb_gt in E1; lia].
  destruct (48 + n mod 10 <=? 57)%nat eqn:E2; [|apply Nat.leb_gt in E2; lia].
  simpl. f_equal. lia.
Qed.

Lemma read_pad2 n acc k :
  (n < 100)%nat →
  Datetime.read_digits 2 acc (Datetime.pad2 n k) = Some ((100 * acc + n)%nat, k).
Proof.
  intros Hn. unfold Datetime.pad2. cbn [Datetime.read_digits].
  rewrite !digit_val_digit. cbn [mbind option_bind].
  rewrite (Nat.mod_small (n / 10) 10)
    by (apply Nat.Div0.div_lt_upper_bound; lia).
  f_equal. f_equal.
  pose proof (Nat.div_mod_eq n 10). lia.
Qed.

Lemma read_pad4 n k :
  (n < 100 * 100)%nat →
  Datetime.read_digits 4 0 (Datetime.pad4 n k) = Some (n, k).
Proof.
  intros Hn. unfold Datetime.pad4, Datetime.pad2.
  cbn [Datetime.read_digits].
  rewrite !digit_val_digit. cbn [mbind option_bind].
  f_equal. f_equal.
  pose proof (Nat.div_mod_eq n 10).
  pose proof (Nat.div_mod_eq (n / 10) 10).
  pose proof (Nat.div_mod_eq (n / 100) 10).
  pose proof (Nat.div_mod_eq (n / 1000) 10).
  assert (n / 1000 / 10 = 0)%nat.
  { rewrite Nat.Div0.div_div. apply Nat.div_small. lia. }
  assert (n / 10 / 10 = n / 100)%nat by (by rewrite Nat.Div0.div_div).
  assert (n / 100 / 10 = n / 1000)%nat by (by rewrite Nat.Div0.div_div).
  lia.
Qed.

Lemma expect_String c k : Datetime.expect c (String c k) = Some k.
Proof. unfold Datetime.expect. by rewrite decide_True. Qed.

(** Reading back a formatted time gives the time, to the second. *)
Lemma strptime_strftime dt :
  Datetime.valid dt = true →
  Datetime.strptime (Datetime.strftime dt) =
  Some {| year := year dt; month := month dt; day := day dt;
          hour := hour dt; minute := minute dt; second := second dt;
          microsecond := 0 |}.
Proof.
  intros Hv. pose proof Hv as Hv'. unfold Datetime.valid in Hv'.
  repeat (apply andb_true_iff in Hv' as [Hv' ?]).
  repeat match goal with
         | H : (_ <=? _)%nat = true |- _ => apply Nat.leb_le in H
         | H : (_ <? _)%nat = true |- _ => apply Nat.ltb_lt in H
         end.
  assert (Hd : (day dt <= 31)%nat).
  { etrans; [eassumption|]. unfold Datetime.days_in_month.
    destruct (month dt) as [|[|[|[|[|[|[|[|[|[|[|[|?]]]]]]]]]]]];
      try destruct (Datetime.is_leap _); lia. }
  unfold Datetime.strptime, Datetime.strftime.
  rewrite read_pad4 by lia. cbn [mbind option_bind].
  do 5 (rewrite expect_String; cbn [mbind option_bind];
        rewrite read_pad2 by lia; cbn [mbind option_bind]).
  rewrite decide_True by done.
  replace (100 * 0 + month dt)%nat with (month dt) by lia.
  replace (100 * 0 + day dt)%nat with (day dt) by lia.
  replace (100 * 0 + hour dt)%nat with (hour dt) by lia.
  replace (100 * 0 + minute dt)%nat with (minute dt) by lia.
  replace (100 * 0 + second dt)%nat with (second dt) by lia.
  assert (Hv2 : Datetime.valid
            {| year := year dt; month := month dt; day := day dt;
               hour := hour dt; minute := minute dt; second := second dt;
               microsecond := 0 |} = true).
  { unfold Datetime.valid in *. cbn [year month day hour minute second microsecond].
    repeat (apply andb_true_iff in Hv as [Hv ?]).
    repeat (apply andb_true_iff; split); done. }
  by rewrite Hv2.
Qed.

(** ** Saved entries *)

Lemma setattr_declared_name self name v :
  name ∈ PendingSend._db_props →
  PendingSend.__setattr__ self name v =
  with_props self (<[name := v]> (_props self)).
Proof.
  intros H. unfold PendingSend.__setattr__, KeyedSqliteThing.__setattr__.
  by rewrite bool_decide_eq_true_2.
Qed.

Lemma complete_iff self :
  complete self ↔
  ∀ name, name ∈ PendingSend._db_required_props → is_Some (_props self !! name).
Proof.
  unfold complete. split.
  - intros H name Hn. destruct (_props self !! name) eqn:E; [done|].
    assert (Hin : name ∈ PendingSend._missing_props self)
      by (by apply missing_props_elem).
    rewrite H in Hin. by apply elem_of_nil in Hin.
  - intros H. apply elem_of_nil_inv. intros name Hin.
    apply missing_props_elem in Hin as [Hreq Hnone].
    specialize (H name Hreq). rewrite Hnone in H. by destruct H.
Qed.

Lemma complete_insert self name v :
  complete self → complete (with_props self (<[name := v]> (_props self))).
Proof.
  rewrite !complete_iff. intros H n Hn. simpl.
  destruct (decide (name = n)) as [->|Hne].
  - rewrite lookup_insert_eq. done.
  - rewrite lookup_insert_ne by done. by apply H.
Qed.

Lemma columns_ok_props self :
  is_PendingSend self → complete self →
  Sqlite.columns_ok (map_to_list (_props self)).*1 = true.
Proof.
  intros [Hauto Hdecl] Hc. apply columns_ok_intro.
  - rewrite complete_iff in Hc.
    assert (Hin : "toaddr" ∈ (map_to_list (_props self)).*1).
    { apply keys_elem, Hc. unfold PendingSend._db_required_props. set_solver. }
    intros E. rewrite E in Hin. by apply elem_of_nil in Hin.
  - intros c Hin. apply keys_elem, Hdecl in Hin. rewrite Hauto in Hin.
    unfold PendingSend._db_required_props, PendingSend._db_optional_props in Hin.
    unfold Sqlite.outbox_columns. set_solver.
Qed.

(** Writing a declared property on a saved entry leaves a saved entry. *)
Lemma persisted_insert self db name v :
  name ∈ PendingSend._db_props →
  persisted self db →
  persisted (with_props self (<[name := v]> (_props self))) db.
Proof.
  intros Hn ([Hauto Hdecl] & Hc & Hin & Hrow).
  split; [split|split; [|split]]; try done.
  - by apply props_declared_insert.
  - by apply complete_insert.
Qed.

(** [save()] on a saved entry is the UPDATE of its row, and it returns. *)
Lemma persisted_save self db clock :
  persisted self db →
  ∃ i r, _id self = Some i ∧ db !! i = Some r ∧
    PendingSend.save self db clock =
      (Return tt, self, <[i := Sqlite.write_cols (_props self) r]> db).
Proof.
  intros (Hps & Hc & Hin & (i & Hi & r & Hr)).
  exists i, r. split; [done|]. split; [done|].
  rewrite (save_complete _ _ _ Hc), Hin. unfold Sqlite.update.
  rewrite (columns_ok_props _ Hps Hc), Hi.
  do 3 f_equal. apply map_eq. intros j.
  destruct (decide (i = j)) as [<-|Hne].
  - by rewrite lookup_alter_eq, lookup_insert_eq, Hr.
  - by rewrite lookup_alter_ne, lookup_insert_ne.
Qed.

Lemma saved_entry_persisted : persisted saved_entry sample_db.
Proof.
  split; [|split; [reflexivity|split; [reflexivity|]]].
  - split; [reflexivity|].
    apply (props_declared_ext
             (PendingSend.run (PendingSend.SetTemplateVars
                (JDict [("name", JStr "Ann"); ("count", JInt 3)]))
                (PendingSend.run (PendingSend.Setattr "template_name"
                                    (VStr "welcome"))
                   (PendingSend.run (PendingSend.Setattr "toaddr"
                                       (VStr "ann@example.org"))
                      new_entry ∅).1.2 ∅).1.2 ∅).1.2);
      [reflexivity..|].
    do 3 apply run_declared. intros name [v Hv]. by simpl in Hv.
  - exists 1%Z. split; [reflexivity|]. eexists. vm_compute. reflexivity.
Qed.

(** ** Marking an entry sent *)




(** ** Counting retries *)

Lemma retried_VInt self c :
  PendingSend.retry_count self = VInt c →
  PendingSend.retried self =
  (Return tt,
   with_props self (<["retry_count" := VInt (c + 1)]> (_props self))).
Proof.
  intros H. unfold PendingSend.retried. rewrite H. simpl.
  rewrite setattr_declared_name; [done|].
  unfold PendingSend._db_props, KeyedSqliteThing._db_props,
    PendingSend._db_optional_props. set_solver.
Qed.

(** [k] calls of [retried()]: the counter in memory goes up by [k], no
    other property changes, and the table is not written. *)
Lemma retried_times self db (k : nat) c :
  persisted self db → PendingSend.retry_count self = VInt c →
  ∃ self_k,
    PendingSend.run_all (repeat PendingSend.Retried k) self db = (self_k, db) ∧
    persisted self_k db ∧ _id self_k = _id self ∧
    PendingSend.retry_count self_k = VInt (c + Z.of_nat k) ∧
    (k = 0%nat → self_k = self) ∧
    (k ≠ 0%nat → _props self_k !! "retry_count" = Some (VInt (c + Z.of_nat k))) ∧
    (∀ name, name ≠ "retry_count" → _props self_k !! name = _props self !! name).
Proof.
  revert self c. induction k as [|k IH]; intros self c Hp Hc.
  - exists self. simpl. rewrite Z.add_0_r.
    do 6 (split; [done|]). done.
  - cbn [repeat PendingSend.run_all PendingSend.run].
    rewrite (retried_VInt _ _ Hc).
    set (self1 := with_props self _).
    assert (Hrc : "retry_count" ∈ PendingSend._db_props).
    { unfold PendingSend._db_props, KeyedSqliteThing._db_props,
        PendingSend._db_optional_props. set_solver. }
    assert (Hp1 : persisted self1 db) by (by apply persisted_insert).
    assert (Hc1 : PendingSend.retry_count self1 = VInt (c + 1)).
    { unfold PendingSend.retry_count, self1. simpl.
      by rewrite lookup_insert_eq. }
    destruct (IH self1 (c + 1)%Z Hp1 Hc1)
      as (self_k & Hrun & Hpk & Hid & Hck & H0 & Hne & Hother).
    exists self_k. split; [done|]. split; [done|]. split; [done|].
    replace (c + Z.of_nat (S k))%Z with (c + 1 + Z.of_nat k)%Z by lia.
    split; [done|]. split; [done|]. split.
    + intros _. destruct k as [|k'].
      * rewrite (H0 eq_refl). unfold self1. simpl.
        by rewrite lookup_insert_eq, Z.add_0_r.
      * by apply Hne.
    + intros name Hname. rewrite (Hother name Hname). unfold self1. simpl.
      by rewrite lookup_insert_ne.
Qed.




(** ** The oldest entries first *)

Lemma ltb_le t1 t2 : (t1 <? t2)%string = true → String.le t1 t2.
Proof.
  unfold String.ltb, String.le, String.leb.
  by destruct (t1 ?= t2)%string.
Qed.

Lemma ltb_not_ge t1 t2 : (t1 <? t2)%string = true → ¬ String.le t2 t1.
Proof.
  unfold String.ltb, String.le, String.leb.
  rewrite (String.compare_antisym t2 t1).
  destruct (t1 ?= t2)%string; simpl; [discriminate|intros _ []|discriminate].
Qed.

Lemma filter_perm {A} (f : A → bool) l l' :
  l ≡ₚ l' → List.filter f l ≡ₚ List.filter f l'.
Proof.
  induction 1 as [|x l l' _ IH|x y l|l l' l'' _ IH1 _ IH2]; simpl.
  - done.
  - destruct (f x); by rewrite IH.
  - destruct (f x), (f y); try done. apply Permutation_swap.
  - by rewrite IH1.
Qed.

Lemma loaded_prop_value (db : table) i r e name :
  db !! i = Some r → PendingSend.__init__ db (Some i) = Return e →
  name ∈ Sqlite.outbox_columns →
  prop_value e name = Sqlite.cell r name.
Proof.
  intros Hr He Hn.
  destruct (init_found db i r Hr) as (e' & He' & _ & _ & _ & Hp).
  rewrite He in He'. injection He' as <-.
  unfold prop_value. rewrite Hp.
  destruct (decide _) as [|Hne]; [done|]. simpl.
  destruct (decide (Sqlite.cell r name = VNone)) as [->|Hv]; [done|].
  destruct Hne. by split.
Qed.

Lemma db_props_columns name :
  name ∈ PendingSend._db_props → name ∈ Sqlite.outbox_columns.
Proof.
  unfold PendingSend._db_props, KeyedSqliteThing._db_props,
    PendingSend._db_required_props, PendingSend._db_optional_props,
    Sqlite.outbox_columns. set_solver.
Qed.

(** Saving a fresh entry inserts a row under the next free key, with the
    clock of the store as its [request_time], a zero retry count and no
    sent time. *)
Lemma save_fresh x (db : table) t :
  fresh_entry x →
  ∃ x',
    PendingSend.save x db t =
      (Return tt, x',
       <[Sqlite.next_rowid db :=
           Sqlite.write_cols (_props x) (Sqlite.default_row t)]> db) ∧
    _id x' = Some (Sqlite.next_rowid db) ∧
    Sqlite.cell (Sqlite.write_cols (_props x) (Sqlite.default_row t))
                "request_time" = VStr t ∧
    Sqlite.unsent_where 5
      (Sqlite.next_rowid db,
       Sqlite.write_cols (_props x) (Sqlite.default_row t)) = true.
Proof.
  intros (Hid & Hin & Hdecl & Hc & Hrc & Hst).
  assert (Hcols : Sqlite.columns_ok (map_to_list (_props x)).*1 = true).
  { apply columns_ok_intro.
    - rewrite complete_iff in Hc.
      assert (Hin' : "toaddr" ∈ (map_to_list (_props x)).*1).
      { apply keys_elem, Hc. unfold PendingSend._db_required_props.
        set_solver. }
      intros E. rewrite E in Hin'. by apply elem_of_nil in Hin'.
    - intros c Hc'. apply db_props_columns, Hdecl. by apply keys_elem. }
  assert (Hrt : _props x !! "request_time" = None).
  { destruct (_props x !! "request_time") eqn:E; [|done].
    assert (Hbad : "request_time" ∈ PendingSend._db_props)
      by (apply Hdecl; by rewrite E).
    unfold PendingSend._db_props, KeyedSqliteThing._db_props,
      PendingSend._db_required_props, PendingSend._db_optional_props in Hbad.
    set_solver. }
  eexists. split; [|split; [|split]].
  - rewrite (save_complete _ _ _ Hc), Hin. unfold Sqlite.insert.
    rewrite Hcols, Hid, next_rowid_fresh. reflexivity.
  - done.
  - by rewrite cell_write_cols, Hrt.
  - unfold Sqlite.unsent_where. simpl.
    by rewrite !cell_write_cols, Hrc, Hst.
Qed.

(** A table of three rows with increasing [request_time] is scanned in
    that order. *)
Lemma order_three (l : list (Z * row)) x1 x2 x3 t1 t2 t3 :
  l ≡ₚ [x1; x2; x3] →
  Sqlite.cell x1.2 "request_time" = VStr t1 →
  Sqlite.cell x2.2 "request_time" = VStr t2 →
  Sqlite.cell x3.2 "request_time" = VStr t3 →
  (t1 <? t2)%string = true → (t2 <? t3)%string = true →
  Sqlite.order_by_request_time l = [x1; x2; x3].
Proof.
  intros Hperm H1 H2 H3 H12 H23. symmetry.
  assert (H13 : String.le t1 t3).
  { etrans; by apply ltb_le. }
  assert (Hn31 : ¬ String.le t3 t1).
  { intros H31. apply (ltb_not_ge _ _ H12).
    etrans; [by apply ltb_le|done]. }
  apply (Sorted_unique_strong Sqlite.by_request_time).
  - unfold Sqlite.by_request_time. intros y1 y2 Hy1 Hy2 H H'.
    rewrite order_by_perm, Hperm in Hy2.
    apply elem_of_cons in Hy1 as [->|Hy1];
      [|apply elem_of_cons in Hy1 as [->|Hy1];
        [|apply list_elem_of_singleton in Hy1 as ->]];
    (apply elem_of_cons in Hy2 as [->|Hy2];
      [|apply elem_of_cons in Hy2 as [->|Hy2];
        [|apply list_elem_of_singleton in Hy2 as ->]]);
    try done;
    rewrite ?H1, ?H2, ?H3 in H, H'; simpl in H, H'; exfalso;
    first [ by apply (ltb_not_ge _ _ H12)
          | by apply (ltb_not_ge _ _ H23)
          | by apply Hn31 ].
  - repeat constructor; unfold Sqlite.by_request_time;
      rewrite ?H1, ?H2, ?H3; simpl; by apply ltb_le.
  - apply order_by_Sorted.
  - by rewrite order_by_perm, Hperm.
Qed.

Lemma filter_none {A} (f : A → bool) l :
  (∀ x, x ∈ l → f x = false) → List.filter f l = [].
Proof.
  induction l as [|x l IH]; intros H; [done|]. simpl.
  rewrite (H x) by apply list_elem_of_here.
  apply IH. intros y Hy. apply H. by apply list_elem_of_further.
Qed.


Lemma sample_entry_fresh : fresh_entry sample_entry.
Proof.
  split; [reflexivity|]. split; [reflexivity|]. split; [|by repeat split].
  intros name [v Hv].
  change (_props sample_entry) with
    (<["template_vars_json" :=
         VStr (Json.dumps (JDict [("name", JStr "Ann"); ("count", JInt 3)]))]>
       (<["template_name" := VStr "welcome"]>
          (<["toaddr" := VStr "ann@example.org"]> (∅ : gmap string value))))
    in Hv.
  unfold PendingSend._db_props, KeyedSqliteThing._db_props,
    PendingSend._db_required_props, PendingSend._db_optional_props.
  destruct (decide (name = "template_vars_json")) as [->|]; [set_solver|].
  destruct (decide (name = "template_name")) as [->|]; [set_solver|].
  destruct (decide (name = "toaddr")) as [->|]; [set_solver|].
  by rewrite !lookup_insert_ne, lookup_empty in Hv.
Qed.


(** The scenario, run: the keys of the two entries yielded are those of
    the first two entries saved. *)
Example scenario_A :
  let db1 := (PendingSend.save sample_entry ∅ "2024-01-01 00:00:00").2 in
  let db2 := (PendingSend.save sample_entry db1 "2024-01-01 00:00:01").2 in
  let db3 := (PendingSend.save sample_entry db2 "2024-01-01 00:00:02").2 in
  Sqlite.select_unsent db3 5 2 = [1%Z; 2%Z].
Proof. vm_compute. reflexivity. Qed.

(** ** JSON texts: integers *)

Lemma app_String c s k : String c s +:+ k = String c (s +:+ k).
Proof. reflexivity. Qed.

Lemma app_empty_l k : "" +:+ k = k.
Proof. reflexivity. Qed.

Lemma app_empty_r s : s +:+ "" = s.
Proof. induction s as [|c s IH]; [done|]. by rewrite app_String, IH. Qed.

Lemma delimited_not_digit k :
  delimited k → Json.span_digits k = ("", k) ∧ Json.number_end k = true.
Proof.
  destruct k as [|c k]; [done|]. simpl.
  intros [->| [->| ->]]; done.
Qed.

Lemma span_digits_uint d k :
  Json.span_digits (NilEmpty.string_of_uint d +:+ k) =
  (NilEmpty.string_of_uint d +:+ (Json.span_digits k).1, (Json.span_digits k).2).
Proof.
  induction d; cbn [NilEmpty.string_of_uint];
    rewrite ?app_String, ?app_empty_l; cbn [Json.span_digits];
    [by destruct (Json.span_digits k)|..];
    (replace (Json.is_digit _) with true by done); by rewrite IHd.
Qed.

(** The decimal digits of a positive number start with a digit other
    than 0. *)
Lemma to_uint_head p :
  ∃ c s, NilEmpty.string_of_uint (Pos.to_uint p) = String c s ∧
         Json.is_digit c = true ∧ c ≠ "0"%char.
Proof.
  assert (Hnorm : Pos.to_uint p = Decimal.unorm (Pos.to_uint p)).
  { rewrite <- DecimalPos.Unsigned.to_of, DecimalPos.Unsigned.of_to.
    reflexivity. }
  pose proof (DecimalPos.Unsigned.to_uint_nonzero p) as Hnz.
  pose proof (DecimalFacts.nzhead_nonzero (Pos.to_uint p)) as Hhd.
  unfold Decimal.unorm in Hnorm.
  destruct (Decimal.nzhead (Pos.to_uint p)) eqn:Enz;
    try (by destruct Hnz); try (by destruct (Hhd u));
    rewrite Hnorm; cbn [NilEmpty.string_of_uint];
    eexists _, _; (split; [reflexivity|]); done.
Qed.

Lemma NilZero_pos p :
  NilZero.string_of_uint (Pos.to_uint p)
  = NilEmpty.string_of_uint (Pos.to_uint p).
Proof.
  pose proof (DecimalPos.Unsigned.to_uint_nonnil p) as H.
  unfold NilZero.string_of_uint. by destruct (Pos.to_uint p).
Qed.

Lemma parse_nat_pos p k :
  delimited k →
  Json.parse_nat (NilEmpty.string_of_uint (Pos.to_uint p) +:+ k)
  = Some (Z.pos p, k).
Proof.
  intros Hk. destruct (delimited_not_digit k Hk) as [Hspan _].
  destruct (to_uint_head p) as (c & s & Hs & Hd & Hc).
  pose proof (span_digits_uint (Pos.to_uint p) k) as Hsp.
  rewrite Hspan in Hsp. simpl in Hsp. rewrite app_empty_r in Hsp.
  unfold Json.parse_nat. rewrite Hs, app_String.
  rewrite decide_False by done. rewrite Hd.
  rewrite <- app_String, <- Hs, Hsp.
  rewrite NilEmpty.usu. simpl. f_equal. f_equal.
  unfold Z.of_uint. by rewrite DecimalPos.Unsigned.of_to.
Qed.

Lemma parse_int_str_int z k :
  delimited k → Json.parse_int (str_int z +:+ k) = Some (JInt z, k).
Proof.
  intros Hk. destruct (delimited_not_digit k Hk) as [_ Hend].
  unfold Json.parse_int, str_int.
  destruct z as [|p|p]; simpl.
  - by rewrite app_empty_l, Hend.
  - destruct (to_uint_head p) as (c & s & Hs & Hd & Hc).
    rewrite NilZero_pos.
    assert (Hminus : c ≠ "-"%char) by (intros ->; done).
    pose proof (parse_nat_pos p k Hk) as Hp.
    rewrite Hs, app_String in *.
    assert (Hm : match String c (s +:+ k) with
                 | String "-" s' =>
                     '(n, r) ← Json.parse_nat s'; Some ((- n)%Z, r)
                 | _ => Json.parse_nat (String c (s +:+ k))
                 end = Json.parse_nat (String c (s +:+ k))).
    { destruct c as [[] [] [] [] [] [] [] []]; try done. }
    rewrite Hm, Hp. simpl. by rewrite Hend.
  - rewrite NilZero_pos.
    rewrite (parse_nat_pos p k Hk). simpl.
    by rewrite Hend.
Qed.

(** The first character of a written integer. *)
Lemma str_int_head z :
  ∃ c s, str_int z = String c s ∧
         (c = "-"%char ∨ Json.is_digit c = true).
Proof.
  unfold str_int. destruct z as [|p|p]; simpl.
  - eexists _, _. split; [reflexivity|]. by right.
  - destruct (to_uint_head p) as (c & s & Hs & Hd & Hc).
    rewrite NilZero_pos.
    exists c, s. split; [done|]. by right.
  - eexists _, _. split; [reflexivity|]. by left.
Qed.

(** ** JSON texts: strings *)

Lemma scan_write_char c k :
  Json.scanstring (Json.write_char c k) =
  Json.scanstring k ≫= λ '(str, rest), Some (String c str, rest).
Proof.
  destruct c as [[] [] [] [] [] [] [] []]; reflexivity.
Qed.

Lemma scan_write_chars s k :
  Json.scanstring (Json.write_chars s (String Json.quote k)) = Some (s, k).
Proof.
  induction s as [|c s IH]; [reflexivity|].
  cbn [Json.write_chars]. by rewrite scan_write_char, IH.
Qed.

Lemma parse_write_string s k fuel :
  Json.parse_value (S fuel) (Json.write_string s k) = Some (JStr s, k).
Proof.
  unfold Json.write_string. cbn [Json.parse_value].
  rewrite decide_True by done. by rewrite scan_write_chars.
Qed.

Lemma write_char_length c k :
  (String.length k < String.length (Json.write_char c k))%nat.
Proof.
  unfold Json.write_char.
  repeat (destruct (decide _) || destruct (_ =? _)%nat
          || destruct (_ || _)%bool); simpl; lia.
Qed.

Lemma write_chars_length s k :
  (String.length k <= String.length (Json.write_chars s k))%nat.
Proof.
  induction s as [|c s IH]; simpl; [lia|].
  pose proof (write_char_length c (Json.write_chars s k)). lia.
Qed.

Lemma write_string_length s k :
  (String.length k + 2 <= String.length (Json.write_string s k))%nat.
Proof.
  unfold Json.write_string. simpl.
  pose proof (write_chars_length s (String Json.quote k)). simpl in *. lia.
Qed.

(** ** JSON texts: values *)

Lemma json_ind' (P : json → Prop) :
  P JNull → (∀ b, P (JBool b)) → (∀ z, P (JInt z)) → (∀ s, P (JStr s)) →
  (∀ l, Forall P l → P (JList l)) →
  (∀ d, Forall (fun kv => P kv.2) d → P (JDict d)) →
  ∀ v, P v.
Proof.
  intros Hn Hb Hi Hs Hl Hd.
  fix IH 1. intros [ |b|z|s|l|d].
  - exact Hn.
  - apply Hb.
  - apply Hi.
  - apply Hs.
  - apply Hl. induction l as [|x l IHl]; constructor; [apply IH|exact IHl].
  - apply Hd. induction d as [|[key x] d IHd]; constructor;
      [apply IH|exact IHd].
Qed.

Lemma write_list l k :
  Json.write (JList l) k = String "[" (Json.write_items l (String "]" k)).
Proof.
  reflexivity.
Qed.

Lemma write_dict d k :
  Json.write (JDict d) k = String "{" (Json.write_members d (String "}" k)).
Proof.
  reflexivity.
Qed.

Lemma str_length_app s k :
  String.length (s +:+ k) = (String.length s + String.length k)%nat.
Proof.
  induction s as [|c s IH]; [done|]. rewrite app_String. simpl. by rewrite IH.
Qed.

Lemma write_items_length l k :
  Forall (fun x => ∀ k, (String.length k < String.length (Json.write x k))%nat) l →
  (String.length k <= String.length (Json.write_items l k))%nat.
Proof.
  induction 1 as [|x l Hx Hl IH]; [cbn [Json.write_items]; lia|].
  cbn [Json.write_items]. destruct l as [|y l].
  - specialize (Hx k). lia.
  - remember (Json.write_items (y :: l) k) as W.
    specialize (Hx (", " +:+ W)).
    rewrite str_length_app in Hx. change (String.length ", ") with 2%nat in Hx.
    lia.
Qed.

Lemma write_members_length (d : list (string * json)) k :
  Forall (fun kv => ∀ k, (String.length k < String.length (Json.write kv.2 k))%nat) d →
  (String.length k <= String.length (Json.write_members d k))%nat.
Proof.
  induction 1 as [|[key x] d Hx Hd IH]; [cbn [Json.write_members]; lia|].
  cbn [Json.write_members]. cbn [snd] in Hx. destruct d as [|y d].
  - pose proof (write_string_length key (": " +:+ Json.write x k)) as H1.
    rewrite str_length_app in H1. change (String.length ": ") with 2%nat in H1.
    specialize (Hx k). lia.
  - remember (Json.write_members (y :: d) k) as W.
    pose proof (write_string_length key
        (": " +:+ Json.write x (", " +:+ W))) as H1.
    rewrite str_length_app in H1. change (String.length ": ") with 2%nat in H1.
    specialize (Hx (", " +:+ W)).
    rewrite str_length_app in Hx. change (String.length ", ") with 2%nat in Hx.
    lia.
Qed.

(** Writing a value puts at least one character before what follows. *)
Lemma write_length v :
  ∀ k, (String.length k < String.length (Json.write v k))%nat.
Proof.
  induction v as [ |b|z|s|l IH|d IH] using json_ind'; intros k.
  - cbn [Json.write]. rewrite str_length_app. simpl. lia.
  - destruct b; cbn [Json.write]; rewrite str_length_app; simpl; lia.
  - cbn [Json.write]. rewrite str_length_app.
    destruct (str_int_head z) as (c & s & -> & _). simpl. lia.
  - cbn [Json.write]. pose proof (write_string_length s k). lia.
  - rewrite write_list. simpl.
    pose proof (write_items_length l (String "]" k) IH). simpl in *. lia.
  - rewrite write_dict. simpl.
    pose proof (write_members_length d (String "}" k) IH). simpl in *. lia.
Qed.

(** A written value starts with a character that is neither blank nor a
    closing bracket. *)
Lemma write_head v k :
  ∃ c s, Json.write v k = String c s ∧ Json.is_ws c = false ∧ c ≠ "]"%char.
Proof.
  destruct v as [ |[]|z|s|l|d]; try (by eexists _, _).
  cbn [Json.write]. destruct (str_int_head z) as (c & s & -> & Hc).
  exists c, (s +:+ k). split; [done|].
  destruct Hc as [->|Hc]; [done|].
  destruct c as [[] [] [] [] [] [] [] []]; done.
Qed.

Lemma skip_ws_write v k : Json.skip_ws (Json.write v k) = Json.write v k.
Proof.
  destruct (write_head v k) as (c & s & -> & Hc & _). simpl. by rewrite Hc.
Qed.

Lemma parse_value_number c s fuel :
  c = "-"%char ∨ Json.is_digit c = true →
  Json.parse_value (S fuel) (String c s) = Json.parse_int (String c s).
Proof.
  intros [->|Hc]; [reflexivity|].
  destruct c as [[] [] [] [] [] [] [] []]; try discriminate Hc; reflexivity.
Qed.

Lemma dict_of_pairs_NoDup (d : list (string * json)) :
  NoDup d.*1 → Json.dict_of_pairs d = d.
Proof.
  unfold Json.dict_of_pairs.
  assert (H : ∀ acc : list (string * json),
             NoDup ((acc ++ d)%list).*1 →
             foldl (fun d kv => Json.dict_set d kv.1 kv.2) acc d = (acc ++ d)%list).
  { induction d as [|[key x] d IH]; intros acc Hnd; simpl.
    - by rewrite app_nil_r.
    - assert (Hset : Json.dict_set acc key x = (acc ++ [(key, x)])%list).
      { rewrite fmap_app, NoDup_app in Hnd. destruct Hnd as (_ & Hdisj & _).
        assert (Hk : key ∉ acc.*1).
        { intros Hin. apply (Hdisj key Hin). simpl. apply list_elem_of_here. }
        clear -Hk. induction acc as [|[k' v'] acc IH]; simpl; [done|].
        rewrite decide_False; [|intros ->; apply Hk; simpl; apply list_elem_of_here].
        rewrite IH; [done|]. intros Hin. apply Hk. simpl.
        by apply list_elem_of_further. }
      rewrite Hset, IH; rewrite <- app_assoc; done. }
  intros Hnd. by apply (H []).
Qed.

Lemma skip_ws_write_items l k :
  l ≠ [] → Json.skip_ws (Json.write_items l k) = Json.write_items l k.
Proof.
  destruct l as [|x [|y l]]; [done|..]; intros _; apply skip_ws_write.
Qed.

Lemma write_items_head l k :
  l ≠ [] →
  ∃ c s, Json.write_items l k = String c s ∧ Json.is_ws c = false ∧
         c ≠ "]"%char.
Proof.
  destruct l as [|x [|y l]]; [done|..]; intros _; apply write_head.
Qed.

Lemma parse_items_cons fuel s v s2 :
  Json.parse_value fuel s = Some (v, String "," (String " " s2)) →
  Json.parse_items (S fuel) s =
  Json.parse_items fuel (Json.skip_ws s2) ≫= λ '(l, rest), Some (v :: l, rest).
Proof. intros H. cbn [Json.parse_items]. rewrite H. reflexivity. Qed.

Lemma parse_items_last fuel s v k :
  Json.parse_value fuel s = Some (v, String "]" k) →
  Json.parse_items (S fuel) s = Some ([v], k).
Proof. intros H. cbn [Json.parse_items]. rewrite H. reflexivity. Qed.

Lemma parse_write_items l :
  Forall (fun x => Json.wf x = true → ∀ k fuel, delimited k →
            (2 * String.length (Json.write x k) < fuel)%nat →
            Json.parse_value fuel (Json.write x k) = Some (x, k)) l →
  forallb Json.wf l = true → l ≠ [] →
  ∀ k fuel,
    (2 * String.length (Json.write_items l (String "]" k)) + 1 < fuel)%nat →
    Json.parse_items fuel (Json.write_items l (String "]" k)) = Some (l, k).
Proof.
  induction 1 as [|x l Hx Hl IH]; intros Hwf Hne k fuel Hfuel; [done|].
  apply andb_true_iff in Hwf as [Hwx Hwl].
  destruct fuel as [|f]; [lia|].
  cbn [Json.write_items] in *. destruct l as [|y l].
  - apply parse_items_last. apply Hx; [done| |lia]. simpl. auto.
  - remember (Json.write_items (y :: l) (String "]" k)) as W.
    pose proof (write_length x (", " +:+ W)) as Hlen.
    rewrite str_length_app in Hlen. change (String.length ", ") with 2%nat in Hlen.
    rewrite (parse_items_cons f _ x W).
    + assert (HW : Json.skip_ws W = W)
        by (subst W; by apply skip_ws_write_items).
      rewrite HW. subst W. rewrite IH; [done|done|done|lia].
    + apply (Hx Hwx (", " +:+ W) f); [|lia]. simpl. auto.
Qed.

Lemma skip_ws_write_members (d : list (string * json)) k :
  d ≠ [] → Json.skip_ws (Json.write_members d k) = Json.write_members d k.
Proof. by destruct d as [|[key x] [|y d]]. Qed.

Lemma parse_members_cons fuel key s0 v s2 :
  Json.scanstring s0
    = Some (key, String ":" (String " " (Json.write v (String "," (String " " s2))))) →
  Json.parse_value fuel (Json.write v (String "," (String " " s2)))
    = Some (v, String "," (String " " s2)) →
  Json.parse_members (S fuel) (String Json.quote s0) =
  Json.parse_members fuel (Json.skip_ws s2)
    ≫= λ '(d, rest), Some ((key, v) :: d, rest).
Proof.
  intros H1 H2. cbn [Json.parse_members]. rewrite decide_True by done.
  rewrite H1. cbn [mbind option_bind].
  change (Json.skip_ws (String ":" (String " " (Json.write v (String "," (String " " s2))))))
    with (String ":" (String " " (Json.write v (String "," (String " " s2))))).
  cbv beta iota. rewrite decide_True by done.
  change (Json.skip_ws (String " " (Json.write v (String "," (String " " s2)))))
    with (Json.skip_ws (Json.write v (String "," (String " " s2)))).
  rewrite skip_ws_write, H2. reflexivity.
Qed.

Lemma parse_members_last fuel key s0 v k :
  Json.scanstring s0
    = Some (key, String ":" (String " " (Json.write v (String "}" k)))) →
  Json.parse_value fuel (Json.write v (String "}" k))
    = Some (v, String "}" k) →
  Json.parse_members (S fuel) (String Json.quote s0) = Some ([(key, v)], k).
Proof.
  intros H1 H2. cbn [Json.parse_members]. rewrite decide_True by done.
  rewrite H1. cbn [mbind option_bind].
  change (Json.skip_ws (String ":" (String " " (Json.write v (String "}" k)))))
    with (String ":" (String " " (Json.write v (String "}" k)))).
  cbv beta iota. rewrite decide_True by done.
  change (Json.skip_ws (String " " (Json.write v (String "}" k))))
    with (Json.skip_ws (Json.write v (String "}" k))).
  rewrite skip_ws_write, H2. reflexivity.
Qed.

Lemma parse_write_members (d : list (string * json)) :
  Forall (fun kv => Json.wf kv.2 = true → ∀ k fuel, delimited k →
            (2 * String.length (Json.write kv.2 k) < fuel)%nat →
            Json.parse_value fuel (Json.write kv.2 k) = Some (kv.2, k)) d →
  forallb (fun kv => match kv with (_, x) => Json.wf x end) d = true →
  d ≠ [] →
  ∀ k fuel,
    (2 * String.length (Json.write_members d (String "}" k)) + 1 < fuel)%nat →
    Json.parse_members fuel (Json.write_members d (String "}" k)) = Some (d, k).
Proof.
  induction 1 as [|[key x] d Hx Hd IH]; intros Hwf Hne k fuel Hfuel; [done|].
  apply andb_true_iff in Hwf as [Hwx Hwd]. cbn [snd] in Hx.
  destruct fuel as [|f]; [lia|].
  cbn [Json.write_members] in *. destruct d as [|y d].
  - pose proof (write_string_length key
        (": " +:+ Json.write x (String "}" k))) as Hlen.
    rewrite str_length_app in Hlen. change (String.length ": ") with 2%nat in Hlen.
    unfold Json.write_string.
    apply parse_members_last.
    + apply scan_write_chars.
    + apply Hx; [done| |lia]. simpl. auto.
  - remember (Json.write_members (y :: d) (String "}" k)) as W.
    pose proof (write_string_length key
        (": " +:+ Json.write x (", " +:+ W))) as Hlen.
    rewrite str_length_app in Hlen. change (String.length ": ") with 2%nat in Hlen.
    pose proof (write_length x (", " +:+ W)) as Hlen2.
    rewrite str_length_app in Hlen2.
    change (String.length ", ") with 2%nat in Hlen2.
    unfold Json.write_string.
    rewrite (parse_members_cons f key _ x W).
    + assert (HW : Json.skip_ws W = W)
        by (subst W; by apply skip_ws_write_members).
      rewrite HW. subst W. rewrite IH; [done|done|done|lia].
    + apply scan_write_chars.
    + apply (Hx Hwx (", " +:+ W) f); [|lia]. simpl. auto.
Qed.

(** The decoder reads back what the encoder wrote, whatever follows it. *)
Lemma parse_write v :
  Json.wf v = true → ∀ k fuel, delimited k →
  (2 * String.length (Json.write v k) < fuel)%nat →
  Json.parse_value fuel (Json.write v k) = Some (v, k).
Proof.
  induction v as [ |b|z|s|l IH|d IH] using json_ind';
    intros Hwf k fuel Hk Hfuel; (destruct fuel as [|f]; [lia|]).
  - reflexivity.
  - by destruct b.
  - cbn [Json.write]. destruct (str_int_head z) as (c & s & Hs & Hc).
    pose proof (parse_int_str_int z k Hk) as Hp.
    rewrite Hs, app_String in *.
    by rewrite parse_value_number.
  - apply parse_write_string.
  - rewrite write_list in *. destruct l as [|x l]; [reflexivity|].
    destruct (write_items_head (x :: l) (String "]" k)) as (c & s & Hs & Hws & Hc);
      [done|].
    pose proof (parse_write_items (x :: l) IH Hwf) as Hitems.
    specialize (Hitems ltac:(done) k f).
    rewrite Hs in *. cbn [Json.parse_value Json.skip_ws].
    rewrite Hws. rewrite decide_False by done.
    rewrite (decide_False (P := "["%char = "{"%char)) by done.
    rewrite decide_True by done. rewrite (decide_False (P := c = "]"%char)) by done.
    rewrite Hitems; [done|]. cbn [String.length] in *. lia.
  - rewrite write_dict in *. destruct d as [|kv d]; [reflexivity|].
    cbn [Json.wf] in Hwf. apply andb_true_iff in Hwf as [Hnd Hwf].
    apply bool_decide_eq_true in Hnd.
    pose proof (parse_write_members (kv :: d) IH Hwf) as Hmem.
    specialize (Hmem ltac:(done) k f).
    assert (Hhd : ∃ s, Json.write_members (kv :: d) (String "}" k)
                       = String Json.quote s).
    { destruct kv as [key x]. destruct d; eexists; reflexivity. }
    destruct Hhd as [s Hs]. rewrite Hs in *.
    cbn [Json.parse_value Json.skip_ws].
    rewrite decide_False by done. rewrite decide_True by done.
    change (Json.is_ws Json.quote) with false. cbn iota.
    rewrite decide_False by done.
    rewrite Hmem; [|cbn [String.length] in *; lia]. cbn [mbind option_bind].
    by rewrite dict_of_pairs_NoDup.
Qed.

(** [loads] undoes [dumps]. *)
Lemma loads_dumps v : Json.wf v = true → Json.loads (Json.dumps v) = Some v.
Proof.
  intros Hwf. unfold Json.loads, Json.dumps.
  rewrite skip_ws_write.
  rewrite (parse_write v Hwf "" _ I) by lia.
  reflexivity.
Qed.

(** ** The template variables *)

Lemma template_vars_of_text self v :
  Json.wf v = true →
  _props self !! "template_vars_json" = Some (VStr (Json.dumps v)) →
  PendingSend.template_vars self = Return (Some v).
Proof.
  intros Hwf Hp. unfold PendingSend.template_vars. rewrite Hp. simpl.
  by rewrite (loads_dumps v Hwf).
Qed.

(** The row a returning [save()] leaves under the identifier of the
    record, when there is one, holds every property that was set. *)
Lemma save_then_found self db now self' (db' : table) i r :
  PendingSend.save self db now = (Return tt, self', db') →
  _id self' = Some i → db' !! i = Some r →
  ∀ name v, _props self !! name = Some v →
            Sqlite.cell r name = v ∧ name ∈ Sqlite.outbox_columns.
Proof.
  rewrite save_unfold. destruct (0 <? _)%nat; [discriminate|].
  destruct (_in_db self).
  - unfold Sqlite.update.
    destruct (Sqlite.columns_ok _) eqn:Hcols; [|discriminate].
    destruct (_id self) as [j|] eqn:Hj; intros [= <- <-] Hi Hr name v Hv.
    + rewrite Hj in Hi. injection Hi as ->.
      rewrite lookup_alter_eq in Hr.
      destruct (db !! i) as [r0|]; [|discriminate]. injection Hr as <-.
      split; [by rewrite cell_write_cols, Hv|].
      eapply columns_ok_elem; [done|]. apply keys_elem. by rewrite Hv.
    + congruence.
  - unfold Sqlite.insert.
    destruct (Sqlite.columns_ok _) eqn:Hcols; [|discriminate].
    intros Hs Hi Hr name v Hv.
    assert (Hrow : r = Sqlite.write_cols (_props self) (Sqlite.default_row now)).
    { destruct (_id self) as [j|] eqn:Hj.
      - destruct (db !! j); [discriminate|]. injection Hs as <- <-.
        simpl in Hi. rewrite Hj in Hi. injection Hi as ->.
        rewrite lookup_insert_eq in Hr. congruence.
      - destruct (db !! Sqlite.next_rowid db); [discriminate|].
        injection Hs as <- <-. simpl in Hi. injection Hi as <-.
        rewrite lookup_insert_eq in Hr. congruence. }
    subst r. split; [by rewrite cell_write_cols, Hv|].
    eapply columns_ok_elem; [done|]. apply keys_elem. by rewrite Hv.
Qed.




(** The scenario, run: the entry is saved, and a fresh instance is loaded
    from its row. *)
Example scenario_E :
  ∃ fresh,
    PendingSend.__init__ sample_db (Some 1%Z) = Return fresh ∧
    PendingSend.template_vars fresh
      = Return (Some (JDict [("name", JStr "Ann"); ("count", JInt 3)])).
Proof.
  eexists. split; [vm_compute; reflexivity|]. by vm_compute.
Qed.

(* ================================================================== *)
(** * Further properties of the module *)

(** ** Deleting and saving again *)

Lemma persisted_id self db :
  persisted self db → ∃ i r, _id self = Some i ∧ db !! i = Some r.
Proof. intros (_ & _ & _ & i & Hi & r & Hr). eauto. Qed.

(** X1.  [delete()] on a record with [in_db] true returns; it removes the
    row of the record's identifier and no other, clears the flag and keeps
    identifier and properties; no scan of the table yields the entry
    afterwards. *)
Theorem delete_removes_row (self : instance) (db : table) :
  _in_db self = true →
  ∃ self' db',
    PendingSend.delete self db = (Return tt, self', db') ∧
    _in_db self' = false ∧ _id self' = _id self ∧ _props self' = _props self ∧
    (∀ i, _id self = Some i → db' !! i = None) ∧
    (∀ j, _id self ≠ Some j → db' !! j = db !! j) ∧
    ∀ m n, ∃ l, PendingSend.Unsent db' m n = Return l ∧
                ∀ e, e ∈ l → _id e ≠ _id self.
Proof.
  intros Hin.
  destruct (delete_in_db self db Hin)
    as (self' & db' & Hd & Hf & Hid & Hp & Hgone & Hother).
  exists self', db'. do 6 (split; [done|]).
  intros m n.
  destruct (unsent_returns db' m n) as (rows & l & Hl & _ & _ & _ & HF).
  exists l. split; [done|]. intros e He.
  apply list_elem_of_lookup in He as [k He].
  destruct (Forall2_lookup_r _ _ _ _ _ HF He) as (x & _ & [[Hx Hw] Hinit]).
  destruct (scanned_entry _ _ x e Hx Hw Hinit) as (Hide & _).
  rewrite Hide. intros E. symmetry in E.
  rewrite (Hgone _ E) in Hx. discriminate.
Qed.

Lemma delete_removes_row_witness :
  ∃ self' db',
    PendingSend.delete saved_entry sample_db = (Return tt, self', db') ∧
    _in_db self' = false ∧ _id self' = Some 1%Z ∧ db' !! 1%Z = None.
Proof.
  destruct (delete_removes_row saved_entry sample_db)
    as (self' & db' & H1 & H2 & H3 & _ & H5 & _).
  - reflexivity.
  - exists self', db'. split; [exact H1|]. split; [exact H2|].
    split; [exact H3|]. apply H5. reflexivity.
Defined.



(** ** Saving twice *)

Lemma write_cols_idemp props (r : row) :
  Sqlite.write_cols props (Sqlite.write_cols props r)
  = Sqlite.write_cols props r.
Proof.
  apply map_eq. intros c. unfold Sqlite.write_cols. rewrite !lookup_merge.
  destruct (props !! c) as [[]|]; destruct (r !! c); reflexivity.
Qed.

Lemma alter_write_cols_idemp props i (db : table) :
  alter (Sqlite.write_cols props) i (alter (Sqlite.write_cols props) i db)
  = alter (Sqlite.write_cols props) i db.
Proof.
  apply map_eq. intros j. destruct (decide (i = j)) as [<-|Hne].
  - rewrite (lookup_alter_eq _ (alter _ i db)), lookup_alter_eq.
    destruct (db !! i) as [r|] eqn:E; [|done].
    cbn -[Sqlite.write_cols]. by rewrite write_cols_idemp.
  - by rewrite (lookup_alter_ne _ (alter _ i db)).
Qed.

(** X3.  [save()] is idempotent: when a [save()] has returned, saving the
    instance again returns, changes neither the instance nor the table,
    and in particular adds no second row for a new entry. *)
Theorem save_twice (self : instance) (db : table) (clock clock' : string)
    (self1 : instance) (db1 : table) :
  PendingSend.save self db clock = (Return tt, self1, db1) →
  PendingSend.save self1 db1 clock' = (Return tt, self1, db1).
Proof.
  rewrite save_unfold.
  destruct (0 <? _)%nat eqn:Hm; [discriminate|].
  assert (Hc : ∀ s, _props s = _props self → complete s).
  { intros s Hs. unfold complete, PendingSend._missing_props,
      KeyedSqliteThing._missing_props. rewrite Hs.
    fold (KeyedSqliteThing._missing_props PendingSend._db_required_props self).
    fold (PendingSend._missing_props self).
    destruct (PendingSend._missing_props self); [done|discriminate]. }
  destruct (_in_db self) eqn:Hin.
  - unfold Sqlite.update.
    destruct (Sqlite.columns_ok _) eqn:Hcols; [|discriminate].
    intros Hs.
    assert (Hs1 : self1 = self) by (destruct (_id self); congruence).
    subst self1. rewrite (save_complete _ _ _ (Hc self eq_refl)), Hin.
    unfold Sqlite.update. rewrite Hcols.
    destruct (_id self) as [i|]; [|congruence].
    injection Hs as <-. by rewrite alter_write_cols_idemp.
  - unfold Sqlite.insert.
    destruct (Sqlite.columns_ok _) eqn:Hcols; [|discriminate].
    intros Hs.
    assert (Hk : ∃ k, _id self1 = Some k ∧ _in_db self1 = true ∧
                      _props self1 = _props self ∧
                      db1 = <[k := Sqlite.write_cols (_props self)
                                     (Sqlite.default_row clock)]> db).
    { destruct (_id self) as [i|] eqn:Hi.
      - destruct (db !! i); [discriminate|]. injection Hs as <- <-.
        exists i. cbn [_id _in_db _props with_in_db with_id]. by rewrite Hi.
      - destruct (db !! Sqlite.next_rowid db); [discriminate|].
        injection Hs as <- <-. by exists (Sqlite.next_rowid db). }
    destruct Hk as (k & Hid1 & Hin1 & Hp1 & ->).
    rewrite (save_complete _ _ _ (Hc self1 Hp1)), Hin1.
    unfold Sqlite.update. rewrite Hp1, Hcols, Hid1.
    f_equal. f_equal. apply map_eq. intros j.
    destruct (decide (k = j)) as [<-|Hne].
    + rewrite lookup_alter_eq, lookup_insert_eq.
      cbn -[Sqlite.write_cols]. by rewrite write_cols_idemp.
    + by rewrite lookup_alter_ne.
Qed.

Lemma save_twice_witness :
  PendingSend.save saved_entry sample_db "2024-01-05 00:00:00"
  = (Return tt, saved_entry, sample_db).
Proof.
  apply (save_twice sample_entry ∅ "2024-01-01 00:00:00"
           "2024-01-05 00:00:00" saved_entry sample_db).
  reflexivity.
Defined.

(** ** Enqueueing a new entry *)


Lemma sample_entry_is_PendingSend : is_PendingSend sample_entry.
Proof. destruct saved_entry_persisted as [[Ha Hd] _]. by split. Qed.


(** ** Constructing an instance *)



(** ** Reading and writing properties *)

(** X6.  Writing a declared property and reading one back by name.  The
    names read are the declared properties that no class property shadows
    ([toaddr], [template_name], [template_vars_json], [last_error]), on an
    instance with no attribute of its own under that name: the read
    reaches [__getattr__]; the property written reads as the value
    written, another one reads as before, and identifier and [in_db] flag
    are as they were.  A write to [retry_count], which the class reads
    through its property, reads there as the value written. *)
Theorem getattr_setattr (self : instance) (name : string) (v : value)
    (name' : string) :
  name ∈ PendingSend._db_props →
  name' ∈ PendingSend.plain_props →
  _dict self !! name' = None →
  PendingSend.getattribute (PendingSend.__setattr__ self name v) name' =
    (if decide (name' = name) then Return v
     else PendingSend.getattribute self name') ∧
  _id (PendingSend.__setattr__ self name v) = _id self ∧
  _in_db (PendingSend.__setattr__ self name v) = _in_db self ∧
  PendingSend.retry_count (PendingSend.__setattr__ self "retry_count" v) = v.
Proof.
  intros Hn Hn' Hd.
  assert (Hrc : "retry_count" ∈ PendingSend._db_props).
  { unfold PendingSend._db_props, KeyedSqliteThing._db_props,
      PendingSend._db_optional_props. set_solver. }
  rewrite (setattr_declared_name _ _ _ Hn), (setattr_declared_name _ _ _ Hrc).
  split; [|split; [done|split; [done|]]].
  - unfold PendingSend.getattribute, KeyedSqliteThing.getattribute.
    cbn [_dict with_props]. rewrite Hd.
    unfold KeyedSqliteThing.__getattr__. cbn [_props with_props].
    destruct (decide (name' = name)) as [->|Hne].
    + rewrite bool_decide_eq_false_2 by (intros H; by apply H).
      by rewrite lookup_insert_eq.
    + by rewrite lookup_insert_ne.
  - unfold PendingSend.retry_count. cbn [_props with_props].
    by rewrite lookup_insert_eq.
Qed.

Lemma getattr_setattr_witness :
  PendingSend.getattribute
    (PendingSend.__setattr__ new_entry "toaddr" (VStr "ann@example.org"))
    "toaddr" = Return (VStr "ann@example.org").
Proof.
  apply (getattr_setattr new_entry "toaddr" (VStr "ann@example.org") "toaddr").
  - unfold PendingSend._db_props, KeyedSqliteThing._db_props,
      PendingSend._db_required_props.
    apply list_elem_of_here.
  - vm_compute. apply list_elem_of_here.
  - reflexivity.
Defined.

(** X7.  A time written with [_set_time_property] under a declared name
    reads back with [_get_time_property] as the same instant to the
    second: the microseconds are dropped by the text format. *)
Theorem time_property_round_trip (self : instance) (name : string)
    (dt : datetime) :
  name ∈ PendingSend._db_props →
  Datetime.valid dt = true → (1000 <= year dt)%nat →
  PendingSend._get_time_property
    (PendingSend._set_time_property self name dt) name
  = Return (Some {| year := year dt; month := month dt; day := day dt;
                    hour := hour dt; minute := minute dt;
                    second := second dt; microsecond := 0 |}).
Proof.
  intros Hn Hv _.
  unfold PendingSend._set_time_property,
    AgedKeyedSqliteThing._set_time_property.
  change (KeyedSqliteThing.__setattr__ PendingSend._db_required_props
            PendingSend._db_optional_props)
    with PendingSend.__setattr__.
  rewrite (setattr_declared_name _ _ _ Hn).
  unfold PendingSend._get_time_property,
    AgedKeyedSqliteThing._get_time_property.
  cbn [_props with_props]. rewrite lookup_insert_eq.
  by rewrite (strptime_strftime _ Hv).
Qed.

Lemma time_property_round_trip_witness :
  PendingSend._get_time_property
    (PendingSend._set_time_property new_entry "sent_time"
       {| year := 2024; month := 2; day := 29; hour := 23; minute := 59;
          second := 58; microsecond := 4321 |}) "sent_time"
  = Return (Some {| year := 2024; month := 2; day := 29; hour := 23;
                    minute := 59; second := 58; microsecond := 0 |}).
Proof.
  apply (time_property_round_trip new_entry "sent_time"
           {| year := 2024; month := 2; day := 29; hour := 23; minute := 59;
              second := 58; microsecond := 4321 |}).
  - unfold PendingSend._db_props, KeyedSqliteThing._db_props,
      PendingSend._db_required_props, PendingSend._db_optional_props.
    simpl. repeat (apply list_elem_of_here || apply list_elem_of_further).
  - reflexivity.
  - apply Nat.leb_le. reflexivity.
Defined.

(** ** Marking sent and counting retries together *)

Lemma mark_sent_props self now :
  PendingSend.mark_sent self now =
  with_props self (<["sent_time" := VStr (Datetime.strftime now)]>
                     (_props self)).
Proof.
  apply setattr_declared_name.
  unfold PendingSend._db_props, KeyedSqliteThing._db_props,
    PendingSend._db_optional_props. set_solver.
Qed.

(** X8.  [mark_sent()] and [retried()] do not interfere: the two calls
    commute, [mark_sent()] leaves the retry count as it was, [retried()]
    leaves [is_sent] as it was, and of two [mark_sent()] calls the later
    one decides the sent time. *)
Theorem mark_sent_retried_independent (self : instance)
    (now now' : datetime) (c : Z) :
  PendingSend.retry_count self = VInt c →
  PendingSend.retried (PendingSend.mark_sent self now)
    = (Return tt, PendingSend.mark_sent (PendingSend.retried self).2 now) ∧
  PendingSend.retry_count (PendingSend.mark_sent self now) = VInt c ∧
  PendingSend.is_sent (PendingSend.retried self).2 = PendingSend.is_sent self ∧
  PendingSend.mark_sent (PendingSend.mark_sent self now) now'
    = PendingSend.mark_sent self now'.
Proof.
  intros Hc.
  assert (Hc' : PendingSend.retry_count (PendingSend.mark_sent self now)
                = VInt c).
  { rewrite mark_sent_props. unfold PendingSend.retry_count in *.
    cbn [_props with_props]. by rewrite lookup_insert_ne. }
  split; [|split; [done|split]].
  - rewrite (retried_VInt _ _ Hc'), (retried_VInt _ _ Hc).
    cbn [snd]. rewrite !mark_sent_props. cbn [_props with_props].
    f_equal. unfold with_props. cbn. f_equal. by apply insert_insert_ne.
  - rewrite (retried_VInt _ _ Hc). cbn [snd].
    unfold PendingSend.is_sent, PendingSend.sent_time,
      PendingSend._get_time_property,
      AgedKeyedSqliteThing._get_time_property.
    cbn [_props with_props]. by rewrite lookup_insert_ne.
  - rewrite !mark_sent_props. unfold with_props. cbn. f_equal.
    apply insert_insert_eq.
Qed.

Lemma mark_sent_retried_independent_witness :
  PendingSend.retry_count
    (PendingSend.mark_sent new_entry
       {| year := 2024; month := 1; day := 2; hour := 3; minute := 4;
          second := 5; microsecond := 0 |}) = VInt 0.
Proof.
  apply (mark_sent_retried_independent new_entry
           {| year := 2024; month := 1; day := 2; hour := 3; minute := 4;
              second := 5; microsecond := 0 |}
           {| year := 2024; month := 1; day := 2; hour := 3; minute := 4;
              second := 6; microsecond := 0 |} 0).
  reflexivity.
Defined.

(** ** More on the scan *)

Lemma limit_all {A} n (l : list A) :
  (n < 0 ∨ Z.of_nat (List.length l) <= n)%Z → Sqlite.limit n l = l.
Proof.
  intros H. unfold Sqlite.limit. destruct (n <? 0)%Z eqn:E; [done|].
  apply Z.ltb_ge in E. apply take_ge. lia.
Qed.

Lemma order_by_length l :
  List.length (Sqlite.order_by_request_time l) = List.length l.
Proof. apply Permutation_length, order_by_perm. Qed.



Lemma NoDup_fst_filter {A B} (f : A * B → bool) (l : list (A * B)) :
  NoDup l.*1 → NoDup (List.filter f l).*1.
Proof.
  induction l as [|x l IH]; simpl; [done|].
  intros Hnd. apply NoDup_cons in Hnd as [Hx Hnd].
  destruct (f x); simpl; [|auto].
  apply NoDup_cons. split; [|auto].
  intros Hin. apply Hx.
  apply list_elem_of_fmap in Hin as (y & -> & Hy).
  apply list_elem_of_fmap. exists y. split; [done|].
  apply list_elem_of_In, filter_In in Hy as [Hy _]. by apply list_elem_of_In.
Qed.

Lemma NoDup_take {A} n (l : list A) : NoDup l → NoDup (take n l).
Proof.
  intros H. rewrite <- (take_drop n l) in H. by apply NoDup_app in H as [? _].
Qed.

Lemma select_unsent_NoDup db m n : NoDup (Sqlite.select_unsent db m n).
Proof.
  unfold Sqlite.select_unsent, Sqlite.limit.
  assert (Hnd : NoDup (Sqlite.order_by_request_time
                         (List.filter (Sqlite.unsent_where m)
                                      (map_to_list db))).*1).
  { rewrite order_by_perm. apply NoDup_fst_filter, NoDup_fst_map_to_list. }
  destruct (n <? 0)%Z; [done|].
  rewrite fmap_take. by apply NoDup_take.
Qed.




(** ** What a call leaves alone *)

(** One call: the rows of other identifiers are kept, the identifier of the
    instance changes only from [None] to a key not in use, and the flag
    [_in_db] is not raised on an instance without identifier. *)
Lemma run_step c self db :
  (∀ j r, db !! j = Some r → _id self ≠ Some j →
          (PendingSend.run c self db).2 !! j = Some r) ∧
  (_id (PendingSend.run c self db).1.2 = _id self ∨
   _id self = None ∧
   ∃ k, _id (PendingSend.run c self db).1.2 = Some k ∧ db !! k = None) ∧
  ((_in_db self = true → is_Some (_id self)) →
   _in_db (PendingSend.run c self db).1.2 = true →
   is_Some (_id (PendingSend.run c self db).1.2)).
Proof.
  destruct c as [name v|v|now| |now|]; cbn [PendingSend.run].
  - unfold PendingSend.__setattr__, KeyedSqliteThing.__setattr__.
    case_bool_decide; cbn; auto.
  - cbn; auto.
  - unfold PendingSend.mark_sent, PendingSend._set_time_property,
      AgedKeyedSqliteThing._set_time_property, KeyedSqliteThing.__setattr__.
    case_bool_decide; cbn; auto.
  - unfold PendingSend.retried.
    destruct (PendingSend.add_one _); [|cbn; auto].
    unfold PendingSend.__setattr__, KeyedSqliteThing.__setattr__.
    case_bool_decide; cbn; auto.
  - rewrite save_unfold.
    destruct (0 <? _)%nat; [cbn; auto|].
    destruct (_in_db self) eqn:Hin.
    + unfold Sqlite.update. destruct (Sqlite.columns_ok _); [|cbn; auto].
      destruct (_id self) as [i|] eqn:Hi; cbn [fst snd]; [|rewrite ?Hi; auto].
      rewrite Hi. split; [|auto].
      intros j r Hj Hne. rewrite lookup_alter_ne by congruence. done.
    + unfold Sqlite.insert.
      destruct (Sqlite.columns_ok _);
        [|cbn; rewrite Hin; split; [auto|split; [auto|done]]].
      destruct (_id self) as [i|] eqn:Hi.
      * destruct (db !! i) eqn:Hdb; cbn [fst snd].
        { rewrite Hi, Hin. split; [auto|split; [auto|done]]. }
        cbn [_id _in_db with_in_db]. rewrite Hi. split; [|eauto].
        intros j r Hj Hne. rewrite lookup_insert_ne by congruence. done.
      * rewrite next_rowid_fresh. cbn [fst snd _id _in_db with_in_db with_id].
        split; [|split; [|by eauto]].
        { intros j r Hj _. rewrite lookup_insert_ne; [done|].
          intros <-. by rewrite next_rowid_fresh in Hj. }
        right. split; [done|]. eexists. split; [done|].
        apply next_rowid_fresh.
  - rewrite delete_unfold. destruct (_in_db self) eqn:Hin; cbn [negb].
    + cbn [fst snd _id _in_db with_in_db]. split; [|split; [auto|done]].
      intros j r Hj Hne. unfold Sqlite.delete_by_id.
      destruct (_id self) as [i|]; [|done].
      rewrite lookup_delete_ne by congruence. done.
    + destruct (KeyedSqliteThing.getattribute _ _ _ _); cbn; rewrite ?Hin; auto.
Qed.

Lemma run_all_cons c cs self db :
  PendingSend.run_all (c :: cs) self db =
  PendingSend.run_all cs (PendingSend.run c self db).1.2
                         (PendingSend.run c self db).2.
Proof.
  cbn [PendingSend.run_all]. by destruct (PendingSend.run c self db) as [[o s] d].
Qed.

(** X12.  No call on one entry touches the row of another: a row whose
    identifier is not that of the instance is still in the table, cell for
    cell, after any sequence of assignments to declared properties,
    [mark_sent()], [retried()], [save()] and [delete()] on the instance,
    whether the calls returned or raised. *)
Theorem run_all_frame (cs : list PendingSend.call) (self : instance)
    (db : table) (j : Z) (r : row) :
  forallb public_call cs = true →
  db !! j = Some r → _id self ≠ Some j →
  (PendingSend.run_all cs self db).2 !! j = Some r.
Proof.
  intros _. revert self db. induction cs as [|c cs IH]; intros self db Hj Hne; [done|].
  rewrite run_all_cons.
  destruct (run_step c self db) as (Hframe & Hid & _).
  apply IH; [by apply Hframe|].
  destruct Hid as [-> | (_ & k & -> & Hk)]; [done|].
  intros [= ->]. by rewrite Hk in Hj.
Qed.

Lemma run_all_frame_witness :
  (PendingSend.run_all
     [PendingSend.Setattr "toaddr" (VStr "bob@example.org");
      PendingSend.Setattr "template_name" (VStr "bye");
      PendingSend.SetTemplateVars (JDict []);
      PendingSend.Save "2024-01-02 00:00:00"; PendingSend.Retried;
      PendingSend.Save "2024-01-02 00:00:01"; PendingSend.Delete]
     new_entry sample_db).2 !! 1%Z
  = Some (Sqlite.write_cols (_props sample_entry)
            (Sqlite.default_row "2024-01-01 00:00:00")).
Proof.
  apply (run_all_frame _ new_entry sample_db 1).
  - reflexivity.
  - vm_compute. reflexivity.
  - discriminate.
Defined.

(** X13.  An entry keeps its identifier: once [_id] is set, no sequence of
    calls on the instance (assignments to declared properties,
    [mark_sent()], [retried()], [save()], [delete()]) changes it. *)
Theorem id_assigned_once (cs : list PendingSend.call) (self : instance)
    (db : table) (i : Z) :
  forallb public_call cs = true →
  _id self = Some i → _id (PendingSend.run_all cs self db).1 = Some i.
Proof.
  intros _. revert self db. induction cs as [|c cs IH]; intros self db Hi; [done|].
  rewrite run_all_cons. apply IH.
  destruct (run_step c self db) as (_ & [-> | (Hn & _)] & _); congruence.
Qed.

Lemma id_assigned_once_witness :
  _id (PendingSend.run_all
         [PendingSend.Retried; PendingSend.Save "2024-01-02 00:00:00";
          PendingSend.Delete; PendingSend.Save "2024-01-03 00:00:00"]
         saved_entry sample_db).1 = Some 1%Z.
Proof.
  apply (id_assigned_once _ saved_entry sample_db 1); reflexivity.
Defined.

Lemma init_in_db_id db oid e :
  PendingSend.__init__ db oid = Return e →
  _dict e = ∅ ∧ (_in_db e = true → is_Some (_id e)).
Proof.
  destruct oid as [i|].
  - destruct (db !! i) as [r|] eqn:Hr.
    + destruct (init_found db i r Hr) as (e' & He' & Hid & _).
      intros He. rewrite He in He'. injection He' as <-.
      split; [|by rewrite Hid].
      revert He. unfold PendingSend.__init__, AgedKeyedSqliteThing.__init__,
        KeyedSqliteThing.__init__, KeyedSqliteThing._load.
      destruct (Sqlite.select_by_id _ _ _) as [[l|]|]; [| |done];
        by intros [= <-].
    + rewrite (init_absent db i Hr). by intros [= <-].
  - rewrite init_None. by intros [= <-].
Qed.

(** X14.  An entry marked as in the table has an identifier: for an
    instance as the constructor returns it, after any sequence of calls
    (assignments to declared properties, [mark_sent()], [retried()],
    [save()], [delete()]), [in_db] true implies that [id] is not [None]. *)
Theorem in_db_has_id (db0 db : table) (oid : option Z) (e : instance)
    (cs : list PendingSend.call) :
  forallb public_call cs = true →
  PendingSend.__init__ db0 oid = Return e →
  _in_db (PendingSend.run_all cs e db).1 = true →
  is_Some (_id (PendingSend.run_all cs e db).1).
Proof.
  intros _ He. apply init_in_db_id in He as [_ He].
  revert e db He. induction cs as [|c cs IH]; intros e db He; [done|].
  rewrite run_all_cons. apply IH.
  by apply (run_step c e db).
Qed.

Lemma in_db_has_id_witness :
  is_Some (_id (PendingSend.run_all
                  [PendingSend.Setattr "toaddr" (VStr "bob@example.org");
                   PendingSend.Setattr "template_name" (VStr "bye");
                   PendingSend.SetTemplateVars (JDict []);
                   PendingSend.Save "2024-01-02 00:00:00"]
                  new_entry sample_db).1).
Proof.
  apply (in_db_has_id ∅ sample_db None new_entry).
  - reflexivity.
  - reflexivity.
  - vm_compute. reflexivity.
Defined.

(** ** The creation time is no attribute *)

(** X15.  [request_time] is loaded but cannot be read by name: the
    constructor copies the cell into [_props], and [entry.request_time]
    raises [AttributeError], the name being no declared property. *)
Theorem request_time_not_readable (db : table) (i : Z) (r : row)
    (t : string) :
  db !! i = Some r → r !! "request_time" = Some (VStr t) →
  ∃ e, PendingSend.__init__ db (Some i) = Return e ∧
       _props e !! "request_time" = Some (VStr t) ∧
       KeyedSqliteThing.getattribute PendingSend._db_required_props
         PendingSend._db_optional_props e "request_time"
       = Raise (AttributeError "No property 'request_time'").
Proof.
  intros Hr Ht.
  destruct (init_found db i r Hr) as (e & He & _ & _ & _ & Hprops).
  exists e. split; [done|]. split.
  - rewrite Hprops. unfold Sqlite.cell. rewrite Ht. cbn [default].
    rewrite decide_True; [done|]. split; [|done].
    unfold Sqlite.outbox_columns. set_solver.
  - apply init_in_db_id in He as [Hd _].
    unfold KeyedSqliteThing.getattribute. rewrite Hd, lookup_empty.
    reflexivity.
Qed.

Lemma request_time_not_readable_witness :
  ∃ e, PendingSend.__init__ sample_db (Some 1%Z) = Return e ∧
       _props e !! "request_time" = Some (VStr "2024-01-01 00:00:00") ∧
       KeyedSqliteThing.getattribute PendingSend._db_required_props
         PendingSend._db_optional_props e "request_time"
       = Raise (AttributeError "No property 'request_time'").
Proof.
  apply (request_time_not_readable sample_db 1
           (Sqlite.write_cols (_props sample_entry)
              (Sqlite.default_row "2024-01-01 00:00:00"))).
  - vm_compute. reflexivity.
  - vm_compute. reflexivity.
Defined.

(** ** Saving under a chosen identifier *)



(** ** The age of an entry *)

Lemma init_birth_time_prop db oid e :
  PendingSend.__init__ db oid = Return e → _birth_time_prop e = "request_time".
Proof.
  unfold PendingSend.__init__, AgedKeyedSqliteThing.__init__.
  destruct (KeyedSqliteThing.__init__ _ _ _ _ _); [|done].
  by intros [= <-].
Qed.

(** X17.  [age] cannot be read on the handle that did the first [save()]:
    before the save the entry is not in the table and its age is the zero
    [timedelta]; after it [in_db] is true but [request_time], which the
    store filled in, is not among the properties of the handle, and the
    subtraction raises [TypeError]. *)
Theorem age_after_first_save (self self' : instance) (db db' : table)
    (clock : string) (utcnow : datetime) :
  _in_db self = false → _birth_time_prop self = "request_time" →
  _props self !! "request_time" = None →
  PendingSend.save self db clock = (Return tt, self', db') →
  PendingSend.age self utcnow
    = Return {| days := 0; seconds := 0; microseconds := 0 |} ∧
  PendingSend.age self' utcnow
    = Raise (TypeError ("unsupported operand type(s) for -: " +:+
                        "'datetime.datetime' and 'NoneType'")).
Proof.
  intros Hin Hb Ht Hsave. split.
  - unfold PendingSend.age, AgedKeyedSqliteThing.age, KeyedSqliteThing.in_db.
    by rewrite Hin.
  - revert Hsave. rewrite save_unfold, Hin.
    destruct (0 <? _)%nat; [done|].
    destruct (Sqlite.insert _ _ _ _) as [[db1 lastid]|]; [|done].
    intros [= <- _].
    unfold PendingSend.age, AgedKeyedSqliteThing.age, KeyedSqliteThing.in_db,
      AgedKeyedSqliteThing._get_time_property.
    cbn [_in_db with_in_db negb]. 
    assert (Hb' : ∀ x, _birth_time_prop
              (with_in_db match _id self with
                          | Some _ => self
                          | None => with_id self x
                          end true) = "request_time")
      by (intros x; by destruct (_id self)).
    assert (Hp' : ∀ x, _props
              (with_in_db match _id self with
                          | Some _ => self
                          | None => with_id self x
                          end true) = _props self)
      by (intros x; by destruct (_id self)).
    by rewrite Hb', Hp', Ht.
Qed.

Lemma age_after_first_save_witness :
  PendingSend.age saved_entry
    {| year := 2024; month := 1; day := 2; hour := 3; minute := 4;
       second := 5; microsecond := 6 |}
  = Raise (TypeError ("unsupported operand type(s) for -: " +:+
                      "'datetime.datetime' and 'NoneType'")).
Proof.
  apply (age_after_first_save sample_entry saved_entry ∅ sample_db
           "2024-01-01 00:00:00").
  - reflexivity.
  - reflexivity.
  - reflexivity.
  - vm_compute. reflexivity.
Defined.

Lemma timedelta_new_range d s us :
  (0 <= seconds (Timedelta.new d s us) < 86400)%Z ∧
  (0 <= microseconds (Timedelta.new d s us) < 1000000)%Z.
Proof.
  unfold Timedelta.new. cbn [seconds microseconds].
  split; apply Z.mod_pos_bound; lia.
Qed.

(** X18.  An entry loaded from its row has an age: when the
    [request_time] cell holds the text of a time [t], the entry the
    constructor returns gives as [age] the difference between
    [datetime.utcnow()] and [t] to the second, a [timedelta] in normal
    form. *)
Theorem age_after_reload (db : table) (i : Z) (r : row) (t utcnow : datetime) :
  db !! i = Some r →
  r !! "request_time" = Some (VStr (Datetime.strftime t)) →
  Datetime.valid t = true →
  ∃ e a,
    PendingSend.__init__ db (Some i) = Return e ∧
    PendingSend.age e utcnow = Return a ∧
    a = Timedelta.sub utcnow
          {| year := year t; month := month t; day := day t;
             hour := hour t; minute := minute t; second := second t;
             microsecond := 0 |} ∧
    (0 <= seconds a < 86400)%Z ∧ (0 <= microseconds a < 1000000)%Z.
Proof.
  intros Hr Ht Hv.
  destruct (init_found db i r Hr) as (e & He & _ & Hin & _ & Hprops).
  exists e. eexists. split; [done|].
  split; [|split; [reflexivity|apply timedelta_new_range]].
  unfold PendingSend.age, AgedKeyedSqliteThing.age, KeyedSqliteThing.in_db,
    AgedKeyedSqliteThing._get_time_property.
  rewrite Hin, (init_birth_time_prop _ _ _ He), Hprops. cbn [negb].
  unfold Sqlite.cell. rewrite Ht. cbn [default].
  rewrite decide_True.
  - unfold id. cbv beta iota. by rewrite (strptime_strftime _ Hv).
  - split; [|done]. unfold Sqlite.outbox_columns. set_solver.
Qed.

Lemma age_after_reload_witness :
  ∃ e a,
    PendingSend.__init__ sample_db (Some 1%Z) = Return e ∧
    PendingSend.age e
      {| year := 2024; month := 3; day := 1; hour := 0; minute := 0;
         second := 30; microsecond := 250 |} = Return a ∧
    a = Timedelta.sub
          {| year := 2024; month := 3; day := 1; hour := 0; minute := 0;
             second := 30; microsecond := 250 |}
          {| year := 2024; month := 1; day := 1; hour := 0; minute := 0;
             second := 0; microsecond := 0 |} ∧
    (0 <= seconds a < 86400)%Z ∧ (0 <= microseconds a < 1000000)%Z.
Proof.
  apply (age_after_reload sample_db 1
           (Sqlite.write_cols (_props sample_entry)
              (Sqlite.default_row "2024-01-01 00:00:00"))
           {| year := 2024; month := 1; day := 1; hour := 0; minute := 0;
              second := 0; microsecond := 77 |}).
  - vm_compute. reflexivity.
  - vm_compute. reflexivity.
  - reflexivity.
Defined.

(** ** The texts of the statements *)

Lemma placeholders_app a b :
  Sqlite.placeholders (a +:+ b)
  = (Sqlite.placeholders a + Sqlite.placeholders b)%nat.
Proof.
  induction a as [|c a IH]; [done|].
  rewrite app_String. cbn [Sqlite.placeholders]. rewrite IH. lia.
Qed.

Lemma placeholders_join sep l :
  Forall (fun name => Sqlite.placeholders name = 0%nat) l →
  Sqlite.placeholders (str_join sep l)
  = ((List.length l - 1) * Sqlite.placeholders sep)%nat.
Proof.
  induction 1 as [|x l Hx Hl IH]; [done|].
  destruct l as [|y l]; [cbn; lia|].
  change (str_join sep (x :: y :: l))
    with (x +:+ sep +:+ str_join sep (y :: l)).
  rewrite !placeholders_app, IH, Hx. cbn [List.length]. lia.
Qed.

Lemma placeholders_repeat s n :
  Sqlite.placeholders (str_repeat s n) = (n * Sqlite.placeholders s)%nat.
Proof.
  induction n as [|n IH]; [done|].
  cbn [str_repeat]. rewrite placeholders_app, IH. lia.
Qed.

Lemma declared_no_placeholder name :
  name ∈ (PendingSend._db_required_props ++ PendingSend._db_optional_props
            ++ ["request_time"])%list →
  Sqlite.placeholders name = 0%nat.
Proof.
  intros H. repeat (apply elem_of_cons in H as [->|H]; [reflexivity|]).
  by apply elem_of_nil in H.
Qed.

Ltac count_literals :=
  repeat match goal with
         | |- context [Sqlite.placeholders ?s] =>
             let v := eval vm_compute in (Sqlite.placeholders s) in
             progress change (Sqlite.placeholders s) with v
         end.

(** X19.  Every statement the class builds for a [PendingSend] asks for as
    many parameters as the call binds: the SELECT of [_load], the DELETE of
    [delete] and, for an entry with its required properties set, the
    UPDATE or INSERT of [save] have one [?] for each argument. *)
Theorem statements_bind_all_parameters (self : instance) :
  is_PendingSend self → complete self →
  Sqlite.placeholders (PendingSend.load_statement self).1
    = List.length (PendingSend.load_statement self).2 ∧
  Sqlite.placeholders (PendingSend.delete_statement self).1
    = List.length (PendingSend.delete_statement self).2 ∧
  Sqlite.placeholders (PendingSend.save_statement self).1
    = List.length (PendingSend.save_statement self).2.
Proof.
  intros [Hauto Hdecl] Hc.
  assert (Hkeys : Forall (fun name => Sqlite.placeholders name = 0%nat)
                         (map_to_list (_props self)).*1).
  { apply Forall_forall. intros name Hn.
    apply declared_no_placeholder. rewrite <- Hauto. apply Hdecl.
    apply list_elem_of_fmap in Hn as ([n v] & -> & Hn).
    apply elem_of_map_to_list in Hn. by eexists. }
  assert (Hne : (1 <= List.length (map_to_list (_props self)).*1)%nat).
  { apply complete_iff with (name := "toaddr") in Hc as [v Hv];
      [|unfold PendingSend._db_required_props; set_solver].
    apply elem_of_map_to_list in Hv.
    apply (list_elem_of_fmap_2 fst) in Hv.
    destruct ((map_to_list (_props self)).*1); [by apply elem_of_nil in Hv|].
    cbn [List.length]. lia. }
  split; [|split].
  - unfold PendingSend.load_statement, KeyedSqliteThing.load_statement,
      KeyedSqliteThing._from_table_where_id, KeyedSqliteThing._where_id.
    cbn [fst snd]. rewrite !placeholders_app, placeholders_join.
    + rewrite Hauto. reflexivity.
    + rewrite Hauto. apply Forall_forall. intros name Hn.
      apply declared_no_placeholder.
      unfold KeyedSqliteThing._db_props in Hn. by rewrite <- app_assoc in Hn.
  - reflexivity.
  - unfold PendingSend.save_statement, KeyedSqliteThing.save_statement,
      KeyedSqliteThing._where_id, KeyedSqliteThing.in_db.
    destruct (_in_db self); cbn [fst snd].
    + rewrite !placeholders_app, (placeholders_join _ _ Hkeys).
      count_literals.
      rewrite length_app, !length_fmap in *. cbn [List.length]. lia.
    + rewrite !placeholders_app, (placeholders_join _ _ Hkeys),
        placeholders_repeat.
      count_literals.
      rewrite length_app, !length_fmap in *. cbn [List.length]. lia.
Qed.

Lemma statements_bind_all_parameters_witness :
  Sqlite.placeholders (PendingSend.load_statement saved_entry).1
    = List.length (PendingSend.load_statement saved_entry).2 ∧
  Sqlite.placeholders (PendingSend.delete_statement saved_entry).1
    = List.length (PendingSend.delete_statement saved_entry).2 ∧
  Sqlite.placeholders (PendingSend.save_statement saved_entry).1
    = List.length (PendingSend.save_statement saved_entry).2.
Proof.
  apply (statements_bind_all_parameters saved_entry).
  - apply saved_entry_persisted.
  - reflexivity.
Defined.

(** ** From enqueue to dequeue *)

Lemma select_unsent_elem (db : table) m n i r :
  db !! i = Some r → Sqlite.unsent_where m (i, r) = true →
  (n < 0 ∨
   Z.of_nat (List.length
               (List.filter (Sqlite.unsent_where m) (map_to_list db))) <= n)%Z →
  i ∈ Sqlite.select_unsent db m n.
Proof.
  intros Hr Hw Hn. unfold Sqlite.select_unsent.
  rewrite limit_all by (by rewrite order_by_length).
  apply list_elem_of_fmap. exists (i, r). split; [done|].
  rewrite order_by_perm. apply list_elem_of_In, filter_In.
  split; [|done]. apply list_elem_of_In. by apply elem_of_map_to_list.
Qed.


